(** * Skribbl-style multiplayer sketch game: room, round, scoring and canvas

    A shallow embedding of the game-session code of the repository
    (React components [GameRoom], [ChatArea] and [DrawingCanvas]) and the
    properties its specification states about it.

    Conventions of the embedding.
    - The authoritative store ([blink.db]) is a record of tables [DB]; a table
      is the list of its rows in creation order.  [update(id, patch)] rewrites
      the rows carrying that id and touches nothing else.
    - A component's React state is a record (the local view); an [async]
      handler is a function from the view it closed over and the store to the
      new store.  The clock ([new Date()]), the random word and the random
      parts of row ids are arguments.
    - A [try { ... } catch] block that only logs is modelled by returning the
      store as it was when the exception was raised.
    - Realtime notifications ([blink.realtime.publish]), toasts and the
      countdown timer carry no store data and are left out.
    - JS numbers that hold counters, scores and seconds are [Z]; where the
      source divides ([calculatePoints]) the arithmetic is done on IEEE 754
      binary64 doubles, as JS does it. *)

From Stdlib Require Import PrimFloat FloatOps SpecFloat.
From Stdlib Require Import ZArith QArith Qround String Ascii Lia.
From stdpp Require Import base list strings pretty relations.

Close Scope Q_scope.
Local Open Scope string_scope.
Local Open Scope list_scope.
Local Open Scope Z_scope.

(** ** Rows of the store *)

(** [gameState: 'waiting' | 'playing' | 'finished'] *)
Inductive GameState := waiting | playing | finished.

#[global] Instance GameState_eq_dec : EqDecision GameState.
Proof. solve_decision. Defined.

(** The user supplied by [blink.auth]. *)
Module User.
Record t := { id : string; email : option string }.
End User.

(** [interface Player] of GameRoom, with the [roomId] column the rows are
    filtered by. *)
Module Player.
Record t := {
  id : string;
  roomId : string;
  userId : string;
  displayName : string;
  score : Z;
  isReady : bool
}.
End Player.

(** [interface GameRoom]. *)
Module Room.
Record t := {
  id : string;
  roomCode : string;
  hostUserId : string;
  currentRound : Z;
  maxRounds : Z;
  roundTime : Z;
  currentDrawerId : option string;
  currentWord : option string;
  gameState : GameState;
  roundStartTime : option string
}.
End Room.

(** A [gameStats] row.  The column [correctGuessers] holds a JSON array of
    user ids; it is kept here as the array [JSON.parse] yields. *)
Module Stats.
Record t := {
  id : string;
  roomId : string;
  roundNumber : Z;
  drawerId : string;
  word : string;
  correctGuessers : list string
}.
End Stats.

(** [interface Point] and [interface StrokeData]; coordinates in canvas
    pixels. *)
Record Point := { px : Z; py : Z }.

Record StrokeData := {
  points : list Point;
  color : string;
  size : Z;
  isEraser : bool
}.

(** [interface DrawingStroke].  The column [strokeData] is JSON text; it is
    kept as the value [JSON.parse] yields, [None] for text it rejects. *)
Module Stroke.
Record t := {
  id : string;
  roomId : string;
  roundNumber : Z;
  strokeData : option StrokeData
}.
End Stroke.

(** [interface GameMessage]. *)
Module Message.
Record t := {
  id : string;
  roomId : string;
  userId : string;
  displayName : string;
  message : string;
  isGuess : bool;
  isCorrect : bool
}.
End Message.

(** ** The store *)

Record DB := {
  gameRooms : list Room.t;
  roomPlayers : list Player.t;
  gameStats : list Stats.t;
  drawingStrokes : list Stroke.t;
  gameMessages : list Message.t
}.

(** [table.update(id, patch)]: every row with that id is patched. *)
Definition updateById {A} (getId : A -> string) (i : string) (patch : A -> A)
    (rows : list A) : list A :=
  (fun r => if decide (getId r = i) then patch r else r) <$> rows.

(** [table.list({ where, limit: 1 })]: the first row that matches. *)
Definition findFirst {A} (p : A -> bool) (rows : list A) : option A :=
  head (filter (fun r => p r = true) rows).

Definition hasId {A} (getId : A -> string) (i : string) (rows : list A) : bool :=
  bool_decide (i ∈ getId <$> rows).

(** [table.create(row)]: ids are primary keys, so a second row with an id
    already present is refused (the call throws); otherwise the row is
    appended. *)
Definition createRow {A} (getId : A -> string) (row : A) (rows : list A)
    : option (list A) :=
  if hasId getId (getId row) rows then None else Some (rows ++ [row]).

Definition with_gameRooms (f : list Room.t -> list Room.t) (db : DB) : DB :=
  {| gameRooms := f (gameRooms db);
     roomPlayers := roomPlayers db;
     gameStats := gameStats db;
     drawingStrokes := drawingStrokes db;
     gameMessages := gameMessages db |}.

Definition with_roomPlayers (f : list Player.t -> list Player.t) (db : DB) : DB :=
  {| gameRooms := gameRooms db;
     roomPlayers := f (roomPlayers db);
     gameStats := gameStats db;
     drawingStrokes := drawingStrokes db;
     gameMessages := gameMessages db |}.

Definition with_gameStats (f : list Stats.t -> list Stats.t) (db : DB) : DB :=
  {| gameRooms := gameRooms db;
     roomPlayers := roomPlayers db;
     gameStats := f (gameStats db);
     drawingStrokes := drawingStrokes db;
     gameMessages := gameMessages db |}.

Definition with_drawingStrokes (f : list Stroke.t -> list Stroke.t) (db : DB) : DB :=
  {| gameRooms := gameRooms db;
     roomPlayers := roomPlayers db;
     gameStats := gameStats db;
     drawingStrokes := f (drawingStrokes db);
     gameMessages := gameMessages db |}.

Definition with_gameMessages (f : list Message.t -> list Message.t) (db : DB) : DB :=
  {| gameRooms := gameRooms db;
     roomPlayers := roomPlayers db;
     gameStats := gameStats db;
     drawingStrokes := drawingStrokes db;
     gameMessages := f (gameMessages db) |}.

(** The room row with a given id, as a reader of the store sees it. *)
Definition roomById (i : string) (db : DB) : option Room.t :=
  findFirst (fun r => bool_decide (Room.id r = i)) (gameRooms db).

(** The stored score of a user's player row. *)
Definition scoreOf (uid : string) (db : DB) : option Z :=
  Player.score <$> findFirst (fun p => bool_decide (Player.userId p = uid)) (roomPlayers db).

(** The stored player row with an id. *)
Definition playerById (i : string) (db : DB) : option Player.t :=
  findFirst (fun p => bool_decide (Player.id p = i)) (roomPlayers db).

(** [orderBy: { score: 'desc' }].  The store is external; rows of equal score
    are taken to keep their creation order. *)
Fixpoint insertByScoreDesc (p : Player.t) (l : list Player.t) : list Player.t :=
  match l with
  | [] => [p]
  | q :: l' =>
      if Player.score q <=? Player.score p then p :: q :: l'
      else q :: insertByScoreDesc p l'
  end.

Definition orderByScoreDesc (l : list Player.t) : list Player.t :=
  foldr insertByScoreDesc [] l.

(** ** GameRoom component *)

(** The React state of [GameRoom] that its handlers close over. *)
Record View := {
  room : option Room.t;
  players : list Player.t;
  user : option User.t;
  isDrawer : bool
}.

(** [players.findIndex(p => p.userId === drawerId)]; [-1] when no player
    matches (in particular when [drawerId] is [null]). *)
Definition findIndex (drawerId : option string) (players : list Player.t) : Z :=
  match list_find (fun p => Some (Player.userId p) = drawerId) players with
  | Some (i, _) => Z.of_nat i
  | None => -1
  end.

(** [players[nextDrawerIndex % players.length]]: indexing an empty array at
    [NaN] gives [undefined]. *)
Definition nextDrawer (players : list Player.t) (drawerId : option string)
    : option Player.t :=
  let nextDrawerIndex := findIndex drawerId players + 1 in
  if decide (players = []) then None
  else players !! Z.to_nat (nextDrawerIndex `mod` Z.of_nat (length players)).

(** The patch [{ gameState: 'finished' }]. *)
Definition finishedPatch (r : Room.t) : Room.t :=
  {| Room.id := Room.id r;
     Room.roomCode := Room.roomCode r;
     Room.hostUserId := Room.hostUserId r;
     Room.currentRound := Room.currentRound r;
     Room.maxRounds := Room.maxRounds r;
     Room.roundTime := Room.roundTime r;
     Room.currentDrawerId := Room.currentDrawerId r;
     Room.currentWord := Room.currentWord r;
     Room.gameState := finished;
     Room.roundStartTime := Room.roundStartTime r |}.

(** The patch [{ currentRound, currentDrawerId, currentWord, roundStartTime }]. *)
Definition roundPatch (n : Z) (drawer word now : string) (r : Room.t) : Room.t :=
  {| Room.id := Room.id r;
     Room.roomCode := Room.roomCode r;
     Room.hostUserId := Room.hostUserId r;
     Room.currentRound := n;
     Room.maxRounds := Room.maxRounds r;
     Room.roundTime := Room.roundTime r;
     Room.currentDrawerId := Some drawer;
     Room.currentWord := Some word;
     Room.gameState := Room.gameState r;
     Room.roundStartTime := Some now |}.

(** The patch [{ gameState: 'playing', currentDrawerId, currentWord,
    currentRound: 1, roundStartTime }]. *)
Definition startPatch (drawer word now : string) (r : Room.t) : Room.t :=
  {| Room.id := Room.id r;
     Room.roomCode := Room.roomCode r;
     Room.hostUserId := Room.hostUserId r;
     Room.currentRound := 1;
     Room.maxRounds := Room.maxRounds r;
     Room.roundTime := Room.roundTime r;
     Room.currentDrawerId := Some drawer;
     Room.currentWord := Some word;
     Room.gameState := playing;
     Room.roundStartTime := Some now |}.

(** The id [`stats_${room.id}_${n}`]. *)
Definition statsId (roomId : string) (n : Z) : string :=
  "stats_" +:+ roomId +:+ "_" +:+ pretty n.

(** [blink.db.gameStats.create({ ..., correctGuessers: '[]' })]; a refused
    create throws into the handler's [catch], after the room was updated. *)
Definition createStats (roomId : string) (n : Z) (drawer word : string) (db : DB) : DB :=
  let row := {| Stats.id := statsId roomId n;
                Stats.roomId := roomId;
                Stats.roundNumber := n;
                Stats.drawerId := drawer;
                Stats.word := word;
                Stats.correctGuessers := [] |} in
  match createRow Stats.id row (gameStats db) with
  | Some rows => with_gameStats (fun _ => rows) db
  | None => db
  end.

(** [nextRound]: [randomWord] is what [getRandomWord()] returned and [now] is
    [new Date().toISOString()]. *)
Definition nextRound (v : View) (randomWord now : string) (db : DB) : DB :=
  match room v, user v with
  | Some r, Some _ =>
      let nextRoundNumber := Room.currentRound r + 1 in
      let nextDrawer := nextDrawer (players v) (Room.currentDrawerId r) in
      if nextRoundNumber >? Room.maxRounds r then
        (* Game finished *)
        with_gameRooms (updateById Room.id (Room.id r) finishedPatch) db
      else
        match nextDrawer with
        | None => db (* nextDrawer.userId throws on undefined *)
        | Some d =>
            let db1 :=
              with_gameRooms
                (updateById Room.id (Room.id r)
                   (roundPatch nextRoundNumber (Player.userId d) randomWord now)) db in
            createStats (Room.id r) nextRoundNumber (Player.userId d) randomWord db1
        end
  | _, _ => db
  end.

(** [loadGameRoom]: reloads the room by its code and its players ordered by
    descending score.  When no room has the code the handler throws and the
    view stays as it was. *)
Definition loadGameRoom (roomCode : string) (v : View) (db : DB) : View :=
  match findFirst (fun r => bool_decide (Room.roomCode r = roomCode)) (gameRooms db) with
  | None => v
  | Some gameRoom =>
      let playersData :=
        orderByScoreDesc
          (filter (fun p => Player.roomId p = Room.id gameRoom) (roomPlayers db)) in
      {| room := Some gameRoom;
         players := playersData;
         user := user v;
         (* gameRoom.currentDrawerId === user?.id *)
         isDrawer := match user v with
                     | Some u => bool_decide (Room.currentDrawerId gameRoom = Some (User.id u))
                     | None => false
                     end |}
  end.

(** [startGame]: the guard is
    [!room || !user || room.hostUserId !== user.id || players.length < 2]. *)
Definition startGame (v : View) (randomWord now : string) (db : DB) : DB :=
  match room v, user v with
  | Some r, Some u =>
      if negb (bool_decide (Room.hostUserId r = User.id u))
         || (Z.of_nat (length (players v)) <? 2)
      then db
      else
        match players v !! 0%nat with
        | None => db
        | Some firstDrawer =>
            let db1 :=
              with_gameRooms
                (updateById Room.id (Room.id r)
                   (startPatch (Player.userId firstDrawer) randomWord now)) db in
            createStats (Room.id r) 1 (Player.userId firstDrawer) randomWord db1
        end
  | _, _ => db
  end.

(** The patch [{ score: player.score + points }]; [player] is the row of the
    local view. *)
Definition scorePatch (newScore : Z) (p : Player.t) : Player.t :=
  {| Player.id := Player.id p;
     Player.roomId := Player.roomId p;
     Player.userId := Player.userId p;
     Player.displayName := Player.displayName p;
     Player.score := newScore;
     Player.isReady := Player.isReady p |}.

(** The patch [{ correctGuessers: JSON.stringify(correctGuessers) }]. *)
Definition guessersPatch (g : list string) (s : Stats.t) : Stats.t :=
  {| Stats.id := Stats.id s;
     Stats.roomId := Stats.roomId s;
     Stats.roundNumber := Stats.roundNumber s;
     Stats.drawerId := Stats.drawerId s;
     Stats.word := Stats.word s;
     Stats.correctGuessers := g |}.

(** The stats row of a round: [gameStats.list({ where: { roomId, roundNumber },
    limit: 1 })]. *)
Definition currentStats (roomId : string) (n : Z) (db : DB) : option Stats.t :=
  findFirst (fun s => bool_decide (Stats.roomId s = roomId)
                      && bool_decide (Stats.roundNumber s = n)) (gameStats db).

(** [awardPoints(playerId, points)].  The score is written first, from the
    score the local view holds; the membership test guards only the append to
    [correctGuessers].  [room!.id] throws when the view has no room. *)
Definition awardPoints (v : View) (playerId : string) (points : Z) (db : DB) : DB :=
  match findFirst (fun p => bool_decide (Player.userId p = playerId)) (players v) with
  | None => db
  | Some player =>
      let db1 :=
        with_roomPlayers
          (updateById Player.id (Player.id player)
             (scorePatch (Player.score player + points))) db in
      match room v with
      | None => db1
      | Some r =>
          match currentStats (Room.id r) (Room.currentRound r) db1 with
          | None => db1
          | Some stats =>
              let correctGuessers := Stats.correctGuessers stats in
              if bool_decide (playerId ∈ correctGuessers) then db1
              else
                with_gameStats
                  (updateById Stats.id (Stats.id stats)
                     (guessersPatch (correctGuessers ++ [playerId]))) db1
          end
      end
  end.

(** The props the component hands down:
    [canDraw={isDrawer && room.gameState === 'playing'}]. *)
Definition canDraw (v : View) : bool :=
  match room v with
  | Some r => isDrawer v && bool_decide (Room.gameState r = playing)
  | None => false
  end.

(** The start control of the render function: the block is rendered only when
    [room.gameState === 'waiting'], the button inside it only for a joined
    player who is the host, and it is disabled below two players. *)
Definition startControl (v : View) : bool :=
  match room v, user v with
  | Some r, Some u =>
      bool_decide (Room.gameState r = waiting)
      && bool_decide (is_Some (findFirst (fun p => bool_decide (Player.userId p = User.id u)) (players v)))
      && bool_decide (Room.hostUserId r = User.id u)
      && negb (Z.of_nat (length (players v)) <? 2)
  | _, _ => false
  end.

(** A click on the start control: [onClick={startGame}] when rendered and
    enabled. *)
Definition clickStart (v : View) (randomWord now : string) (db : DB) : DB :=
  if startControl v then startGame v randomWord now db else db.

(** ** ChatArea component *)

(** Strings are ASCII text: [toLowerCase] maps [A]..[Z] to [a]..[z], and the
    white space [trim] removes is tab, line feed, vertical tab, form feed,
    carriage return and space. *)
Definition lowerChar (c : ascii) : ascii :=
  let n := nat_of_ascii c in
  if ((65 <=? n) && (n <=? 90))%nat then ascii_of_nat (n + 32) else c.

Fixpoint toLowerCase (s : string) : string :=
  match s with
  | EmptyString => EmptyString
  | String c s' => String (lowerChar c) (toLowerCase s')
  end.

Definition isSpace (c : ascii) : bool :=
  let n := nat_of_ascii c in
  (((9 <=? n) && (n <=? 13)) || (n =? 32))%nat.

Fixpoint trimStart (s : string) : string :=
  match s with
  | EmptyString => EmptyString
  | String c s' => if isSpace c then trimStart s' else s
  end.

Fixpoint trimEnd (s : string) : string :=
  match s with
  | EmptyString => EmptyString
  | String c s' =>
      let t := trimEnd s' in
      if isSpace c && bool_decide (t = EmptyString) then EmptyString else String c t
  end.

Definition trim (s : string) : string := trimEnd (trimStart s).

(** [s.split('@')[0]] *)
Fixpoint beforeAt (s : string) : string :=
  match s with
  | EmptyString => EmptyString
  | String c s' => if bool_decide (c = "@"%char) then EmptyString else String c (beforeAt s')
  end.

(** [user.email?.split('@')[0] || 'Player'] *)
Definition displayNameOf (u : User.t) : string :=
  match User.email u with
  | None => "Player"
  | Some e => if bool_decide (beforeAt e = "") then "Player" else beforeAt e
  end.

(** *** Doubles

    The kernel's primitive floats are IEEE 754 binary64 with rounding to
    nearest even, the arithmetic of JS numbers. *)

(** The double of a whole number: the number itself below [2^53] (JS's
    [Number.MAX_SAFE_INTEGER + 1]), the nearest double beyond. *)
Definition number (z : Z) : float :=
  SF2Prim (binary_normalize prec emax z 0 false).

(** A finite double other than zero as [m * 2^e] with whole [m]. *)
Definition scaled (x : float) : Z * Z :=
  let (r, e) := Z.frexp x in
  let m := Uint63Axioms.to_Z (normfr_mantissa r) in
  (if get_sign x then - m else m, e - prec).

(** [Math.floor]: NaN, the infinities and the zeros are returned as they
    are. *)
Definition Math_floor (x : float) : float :=
  if is_nan x || is_infinity x || PrimFloat.is_zero x then x
  else
    let (m, e) := scaled x in
    if 0 <=? e then x else number (Z.shiftl m e).

(** [Math.max] of two arguments: NaN when either is NaN, and [+0] counts as
    larger than [-0]. *)
Definition Math_max (a b : float) : float :=
  if is_nan a || is_nan b then nan
  else if (a <? b)%float then b
  else if (b <? a)%float then a
  else if get_sign a then b else a.

(** The whole number a double holds.  NaN and the infinities hold none; they
    are mapped to 0 here and arise in [calculatePoints] for [maxTime = 0]
    only. *)
Definition whole (x : float) : Z :=
  if is_nan x || is_infinity x || PrimFloat.is_zero x then 0
  else let (m, e) := scaled x in Z.shiftl m e.

(** [calculatePoints(timeLeft, maxTime)], on doubles as in the source; the
    callers pass whole seconds and add the result to a whole score. *)
Definition calculatePoints (timeLeft maxTime : Z) : Z :=
  let timeRatio := (number timeLeft / number maxTime)%float in
  let basePoints := 100%float in
  let timeBonus := Math_floor (timeRatio * 50)%float in
  whole (Math_max (basePoints + timeBonus) 50)%float.

(** The default of the parameter [maxTime: number = 60]. *)
Definition defaultMaxTime : Z := 60.

(** The props of [ChatArea]. *)
Record ChatProps := {
  chatRoomId : string;
  currentWord : option string;
  chatIsDrawer : bool;
  chatGameState : GameState
}.

(** What a submission did besides writing the message: the row written and
    the call [onCorrectGuess(user.id, points)], if made. *)
Record Sent := {
  messageData : Message.t;
  onCorrectGuess : option (string * Z)
}.

(** [sendMessage]: [None] when the handler returns before building a message
    (blank text, no user, or the drawer while playing). *)
Definition sendMessage (props : ChatProps) (user : option User.t)
    (newMessage msgId : string) : option Sent :=
  match user with
  | None => None
  | Some u =>
      if bool_decide (trim newMessage = "") then None
      else if chatIsDrawer props && bool_decide (chatGameState props = playing) then None
      else
        let isGuess := bool_decide (chatGameState props = playing) && negb (chatIsDrawer props) in
        let isCorrect :=
          isGuess &&
          match currentWord props with
          | None => false
          | Some w =>
              negb (bool_decide (w = ""))
              && bool_decide (trim (toLowerCase newMessage) = toLowerCase w)
          end in
        let messageData :=
          {| Message.id := msgId;
             Message.roomId := chatRoomId props;
             Message.userId := User.id u;
             Message.displayName := displayNameOf u;
             Message.message := trim newMessage;
             Message.isGuess := isGuess;
             Message.isCorrect := isCorrect |} in
        Some {| messageData := messageData;
                onCorrectGuess :=
                  if isCorrect
                  then Some (User.id u, calculatePoints 60 defaultMaxTime)
                  else None |}
  end.

(** The store effect of a submission: [blink.db.gameMessages.create]. *)
Definition storeMessage (m : Message.t) (db : DB) : DB :=
  match createRow Message.id m (gameMessages db) with
  | Some rows => with_gameMessages (fun _ => rows) db
  | None => db
  end.

(** [GameRoom] renders [ChatArea] with these props. *)
Definition chatProps (v : View) : option ChatProps :=
  match room v with
  | Some r => Some {| chatRoomId := Room.id r;
                      currentWord := Room.currentWord r;
                      chatIsDrawer := isDrawer v;
                      chatGameState := Room.gameState r |}
  | None => None
  end.

(** ** DrawingCanvas component *)

(** [ctx.globalCompositeOperation], the two values the component sets. *)
Inductive CompositeOp := source_over | destination_out.

(** The bitmap of the canvas: the colour of an opaque pixel, [None] for a
    transparent one. *)
Definition Pixels := Z -> Z -> option string.

(** The part of a [CanvasRenderingContext2D] the component reads or writes. *)
Record Ctx := {
  pixels : Pixels;
  globalCompositeOperation : CompositeOp;
  strokeStyle : string;
  fillStyle : string;
  lineWidth : Z;
  lineCap : string;
  lineJoin : string;
  path : list Point
}.

(** [<canvas width={800} height={600}>] *)
Definition canvasWidth : Z := 800.
Definition canvasHeight : Z := 600.

Definition inCanvas (x y : Z) : bool :=
  (0 <=? x) && (x <? canvasWidth) && (0 <=? y) && (y <? canvasHeight).

(** A context as [getContext('2d')] first returns it. *)
Definition freshCtx : Ctx :=
  {| pixels := fun _ _ => None;
     globalCompositeOperation := source_over;
     strokeStyle := "#000000";
     fillStyle := "#000000";
     lineWidth := 1;
     lineCap := "butt";
     lineJoin := "miter";
     path := [] |}.

(** Painting an opaque colour onto a pixel under a composite operation:
    source-over replaces it, destination-out removes what was there. *)
Definition composite (op : CompositeOp) (src : string) (dst : option string)
    : option string :=
  match op with
  | source_over => Some src
  | destination_out => None
  end.

Definition set_pixels (f : Pixels) (c : Ctx) : Ctx :=
  {| pixels := f;
     globalCompositeOperation := globalCompositeOperation c;
     strokeStyle := strokeStyle c;
     fillStyle := fillStyle c;
     lineWidth := lineWidth c;
     lineCap := lineCap c;
     lineJoin := lineJoin c;
     path := path c |}.

Definition set_path (p : list Point) (c : Ctx) : Ctx :=
  {| pixels := pixels c;
     globalCompositeOperation := globalCompositeOperation c;
     strokeStyle := strokeStyle c;
     fillStyle := fillStyle c;
     lineWidth := lineWidth c;
     lineCap := lineCap c;
     lineJoin := lineJoin c;
     path := p |}.

Definition set_fillStyle (s : string) (c : Ctx) : Ctx :=
  {| pixels := pixels c;
     globalCompositeOperation := globalCompositeOperation c;
     strokeStyle := strokeStyle c;
     fillStyle := s;
     lineWidth := lineWidth c;
     lineCap := lineCap c;
     lineJoin := lineJoin c;
     path := path c |}.

(** The assignments every stroke makes: [strokeStyle], [lineWidth],
    [lineCap = 'round'], [lineJoin = 'round'] and the composite operation
    chosen by the eraser flag. *)
Definition set_pen (style : string) (width : Z) (eraser : bool) (c : Ctx) : Ctx :=
  {| pixels := pixels c;
     globalCompositeOperation := if eraser then destination_out else source_over;
     strokeStyle := style;
     fillStyle := fillStyle c;
     lineWidth := width;
     lineCap := "round";
     lineJoin := "round";
     path := path c |}.

(** [ctx.clearRect(0, 0, canvas.width, canvas.height)]: the pixels become
    transparent, whatever the composite operation. *)
Definition clearRect (c : Ctx) : Ctx :=
  set_pixels (fun x y => if inCanvas x y then None else pixels c x y) c.

(** [ctx.fillRect(0, 0, canvas.width, canvas.height)]: paints the fill style
    through the current composite operation. *)
Definition fillRect (c : Ctx) : Ctx :=
  set_pixels
    (fun x y =>
       if inCanvas x y
       then composite (globalCompositeOperation c) (fillStyle c) (pixels c x y)
       else pixels c x y) c.

Definition beginPath (c : Ctx) : Ctx := set_path [] c.
Definition moveTo (p : Point) (c : Ctx) : Ctx := set_path [p] c.
Definition lineTo (p : Point) (c : Ctx) : Ctx := set_path (path c ++ [p]) c.

Section Canvas.

(** The rasteriser of the browser: whether stroking a path with a line
    width (round caps and joins) covers a pixel. *)
Variable covers : list Point -> Z -> Z -> Z -> bool.

(** [ctx.stroke()]: paints the stroke style on the covered pixels through
    the current composite operation. *)
Definition stroke (c : Ctx) : Ctx :=
  set_pixels
    (fun x y =>
       if inCanvas x y && covers (path c) (lineWidth c) x y
       then composite (globalCompositeOperation c) (strokeStyle c) (pixels c x y)
       else pixels c x y) c.

(** [drawStroke(ctx, strokeData)] *)
Definition drawStroke (c : Ctx) (strokeData : StrokeData) : Ctx :=
  match points strokeData with
  | p0 :: (_ :: _) as rest =>
      let c := beginPath c in
      let c := set_pen (color strokeData) (size strokeData) (isEraser strokeData) c in
      let c := moveTo p0 c in
      let c := foldl (fun c p => lineTo p c) c rest in
      stroke c
  | _ => c (* fewer than two points *)
  end.

(** [redrawCanvas(strokesData)]: a stroke whose JSON does not parse is
    skipped by the [catch] inside the loop. *)
Definition redrawCanvas (c : Ctx) (strokesData : list Stroke.t) : Ctx :=
  (* Clear canvas *)
  let c := clearRect c in
  let c := set_fillStyle "#ffffff" c in
  let c := fillRect c in
  (* Redraw all strokes *)
  foldl (fun c s =>
           match Stroke.strokeData s with
           | Some strokeData => drawStroke c strokeData
           | None => c
           end) c strokesData.

(** The props of [DrawingCanvas]. *)
Record CanvasProps := {
  canvasRoomId : string;
  propCanDraw : bool;
  propCurrentRound : Z
}.

(** The React state of [DrawingCanvas], with the context of its canvas. *)
Record CanvasState := {
  ctx : Ctx;
  isDrawing : bool;
  currentColor : string;
  brushSize : Z;
  eraserOn : bool;
  strokes : list Stroke.t;
  currentStroke : list Point
}.

Definition set_ctx (f : Ctx -> Ctx) (st : CanvasState) : CanvasState :=
  {| ctx := f (ctx st);
     isDrawing := isDrawing st;
     currentColor := currentColor st;
     brushSize := brushSize st;
     eraserOn := eraserOn st;
     strokes := strokes st;
     currentStroke := currentStroke st |}.

Definition set_drawing (b : bool) (pts : list Point) (st : CanvasState) : CanvasState :=
  {| ctx := ctx st;
     isDrawing := b;
     currentColor := currentColor st;
     brushSize := brushSize st;
     eraserOn := eraserOn st;
     strokes := strokes st;
     currentStroke := pts |}.

Definition set_strokes (l : list Stroke.t) (st : CanvasState) : CanvasState :=
  {| ctx := ctx st;
     isDrawing := isDrawing st;
     currentColor := currentColor st;
     brushSize := brushSize st;
     eraserOn := eraserOn st;
     strokes := l;
     currentStroke := currentStroke st |}.

(** [loadStrokes]: the strokes of the room and round in creation order,
    then a full redraw. *)
Definition loadStrokes (props : CanvasProps) (st : CanvasState) (db : DB) : CanvasState :=
  let strokesData :=
    filter (fun s => Stroke.roomId s = canvasRoomId props
                     /\ Stroke.roundNumber s = propCurrentRound props)
           (drawingStrokes db) in
  set_ctx (fun c => redrawCanvas c strokesData) (set_strokes strokesData st).

(** [startDrawing(e)]: [point] is [getMousePos(e)]. *)
Definition startDrawing (props : CanvasProps) (point : Point) (st : CanvasState)
    : CanvasState :=
  if negb (propCanDraw props) then st
  else
    set_ctx (fun c => moveTo point (beginPath c)) (set_drawing true [point] st).

(** [draw(e)] *)
Definition draw (props : CanvasProps) (point : Point) (st : CanvasState)
    : CanvasState :=
  if negb (isDrawing st) || negb (propCanDraw props) then st
  else
    let st1 := set_drawing (isDrawing st) (currentStroke st ++ [point]) st in
    set_ctx
      (fun c =>
         let c := set_pen (if eraserOn st then "#ffffff" else currentColor st)
                          (brushSize st) (eraserOn st) c in
         let c := lineTo point c in
         let c := stroke c in
         let c := beginPath c in
         moveTo point c) st1.

(** [stopDrawing()]: [strokeId] is [`stroke_${Date.now()}_${Math.random()}`].
    A refused create leaves [currentStroke] in place. *)
Definition stopDrawing (props : CanvasProps) (strokeId : string)
    (st : CanvasState) (db : DB) : CanvasState * DB :=
  if negb (isDrawing st) || negb (propCanDraw props)
     || (Z.of_nat (length (currentStroke st)) <? 2)
  then (set_drawing false [] st, db)
  else
    let strokeData :=
      {| points := currentStroke st;
         color := if eraserOn st then "#ffffff" else currentColor st;
         size := brushSize st;
         isEraser := eraserOn st |} in
    let row :=
      {| Stroke.id := strokeId;
         Stroke.roomId := canvasRoomId props;
         Stroke.roundNumber := propCurrentRound props;
         Stroke.strokeData := Some strokeData |} in
    match createRow Stroke.id row (drawingStrokes db) with
    | Some rows =>
        (set_drawing false [] st, with_drawingStrokes (fun _ => rows) db)
    | None => (set_drawing false (currentStroke st) st, db)
    end.

(** [undoLastStroke()]: deletes the last stroke of the local list from the
    store; the reload that follows is [loadStrokes]. *)
Definition undoLastStroke (props : CanvasProps) (st : CanvasState) (db : DB) : DB :=
  if negb (propCanDraw props) then db
  else
    match last (strokes st) with
    | None => db
    | Some lastStroke =>
        with_drawingStrokes
          (filter (fun s => Stroke.id s <> Stroke.id lastStroke)) db
    end.

End Canvas.

(** ** The words of the specification, for comparison *)



(** The normalisation of the specification: case-folded, surrounding white
    space trimmed. *)
Definition spec_normalize (s : string) : string := trim (toLowerCase s).

(** An append attempt as the specification words it: accepted when
    [canDraw] holds, "all other append attempts are rejected as
    Unauthorized".  [attempt] is what an accepted attempt yields. *)
Inductive SpecError := Unauthorized.

Definition spec_append {A} (canDraw : bool) (attempt : A) : SpecError + A :=
  if canDraw then inr attempt else inl Unauthorized.

(** ** The scoring over a range of whole seconds *)




(** The drawer the specification names: the player right after the current
    drawer in join order, wrapping around.  [joined] is the roster in join
    order. *)
Definition spec_successor (joined : list Player.t) (drawerId : string)
    : option Player.t :=
  match list_find (fun p => Player.userId p = drawerId) joined with
  | Some (i, _) => joined !! ((i + 1) `mod` length joined)%nat
  | None => None
  end.

(** Join order: [joinRoom] creates one [roomPlayers] row per player, so the
    creation order of a room's rows is the order in which its players joined. *)
Definition joinOrder (roomId : string) (db : DB) : list Player.t :=
  filter (fun p => Player.roomId p = roomId) (roomPlayers db).

(** The drawers of the next [n] rounds when the loaded roster stays as it is:
    each round's drawer is [nextDrawer] of the one before. *)
Fixpoint drawerSequence (players : list Player.t) (drawerId : option string)
    (n : nat) : list Player.t :=
  match n with
  | O => []
  | S k =>
      match nextDrawer players drawerId with
      | Some d => d :: drawerSequence players (Some (Player.userId d)) k
      | None => []
      end
  end.







(** Two contexts that show the same canvas and carry the same composite
    operation. *)
Definition sameCanvas (c1 c2 : Ctx) : Prop :=
  globalCompositeOperation c1 = globalCompositeOperation c2
  /\ forall x y, inCanvas x y = true -> pixels c1 x y = pixels c2 x y.

(** ** A room used in the examples

    Room [ABC123], three rounds of 60 seconds; alice (the host), bob and carol
    joined in that order. *)
Module Ex.

Definition alice : User.t := {| User.id := "u_alice"; User.email := Some "alice@example.org" |}.
Definition bob : User.t := {| User.id := "u_bob"; User.email := Some "bob@example.org" |}.
Definition carol : User.t := {| User.id := "u_carol"; User.email := Some "carol@example.org" |}.

(** The row [joinRoom] creates, with a score. *)
Definition playerRow (u : User.t) (score : Z) : Player.t :=
  {| Player.id := "player_" +:+ User.id u +:+ "_room_1";
     Player.roomId := "room_1";
     Player.userId := User.id u;
     Player.displayName := displayNameOf u;
     Player.score := score;
     Player.isReady := false |}.

Definition roomRow (state : GameState) (round : Z) (drawer word : option string)
    : Room.t :=
  {| Room.id := "room_1";
     Room.roomCode := "ABC123";
     Room.hostUserId := "u_alice";
     Room.currentRound := round;
     Room.maxRounds := 3;
     Room.roundTime := 60;
     Room.currentDrawerId := drawer;
     Room.currentWord := word;
     Room.gameState := state;
     Room.roundStartTime :=
       match drawer with
       | Some _ => Some "2025-01-01T12:00:00.000Z"
       | None => None
       end |}.

Definition statsRow (round : Z) (guessers : list string) : Stats.t :=
  {| Stats.id := statsId "room_1" round;
     Stats.roomId := "room_1";
     Stats.roundNumber := round;
     Stats.drawerId := "u_alice";
     Stats.word := "cat";
     Stats.correctGuessers := guessers |}.

Definition store (r : Room.t) (scoreA scoreB scoreC : Z) (stats : list Stats.t) : DB :=
  {| gameRooms := [r];
     roomPlayers := [playerRow alice scoreA; playerRow bob scoreB; playerRow carol scoreC];
     gameStats := stats;
     drawingStrokes := [];
     gameMessages := [] |}.

(** The view of a client before its first load. *)
Definition blank (u : User.t) : View :=
  {| room := None; players := []; user := Some u; isDrawer := false |}.

(** The lobby: nobody has scored, the game has not started. *)
Definition lobby : DB := store (roomRow waiting 0 None None) 0 0 0 [].

(** Round 1 with alice drawing "cat" and nobody having guessed yet. *)
Definition round1 : DB :=
  store (roomRow playing 1 (Some "u_alice") (Some "cat")) 0 0 0 [statsRow 1 []].

(** Round 1 with alice drawing; bob has 150 points and carol 300. *)
Definition scored : DB :=
  store (roomRow playing 1 (Some "u_alice") (Some "cat")) 0 150 300
        [statsRow 1 ["u_bob"; "u_carol"]].

(** The last round, alice drawing. *)
Definition lastRound : DB :=
  store (roomRow playing 3 (Some "u_alice") (Some "cat")) 0 150 300 [statsRow 3 []].

(** A finished game. *)
Definition over : DB :=
  store (roomRow finished 3 (Some "u_alice") (Some "cat")) 0 150 300 [statsRow 3 []].

Definition now : string := "2025-01-01T12:05:00.000Z".

(** Chat props of a guesser while the word is "cat", and while the stored
    word carries a leading space. *)
Definition guesserProps (word : string) : ChatProps :=
  {| chatRoomId := "room_1";
     currentWord := Some word;
     chatIsDrawer := false;
     chatGameState := playing |}.

(** An eraser stroke and a pen stroke. *)
Definition eraserStroke : Stroke.t :=
  {| Stroke.id := "stroke_1";
     Stroke.roomId := "room_1";
     Stroke.roundNumber := 1;
     Stroke.strokeData :=
       Some {| points := [ {| px := 10; py := 10 |}; {| px := 20; py := 20 |} ];
               color := "#ffffff"; size := 5; isEraser := true |} |}.

(** Round 1 with the given stroke log. *)
Definition drawn (log : list Stroke.t) : DB :=
  with_drawingStrokes (fun _ => log) round1.

Definition drawerProps : CanvasProps :=
  {| canvasRoomId := "room_1"; propCanDraw := true; propCurrentRound := 1 |}.

Definition viewerProps : CanvasProps :=
  {| canvasRoomId := "room_1"; propCanDraw := false; propCurrentRound := 1 |}.

(** The canvas state of a client that has just mounted. *)
Definition mounted : CanvasState :=
  {| ctx := freshCtx;
     isDrawing := false;
     currentColor := "#000000";
     brushSize := 5;
     eraserOn := false;
     strokes := [];
     currentStroke := [] |}.

End Ex.

From Stdlib Require Import Sorted.

(** ** GameRoom component: timer, word selection, joining *)

(** The state [timeLeft] with the interval behind [timerRef]: [ticking] tells
    whether an interval is installed. *)
Module Timer.
Record t := { timeLeft : Z; ticking : bool }.
End Timer.

(** [useState(0)], no interval yet. *)
Definition initialTimer : Timer.t :=
  {| Timer.timeLeft := 0; Timer.ticking := false |}.

(** [startTimer(duration)]: any earlier interval is cleared, [timeLeft] is set
    and a new interval installed. *)
Definition startTimer (duration : Z) : Timer.t :=
  {| Timer.timeLeft := duration; Timer.ticking := true |}.

(** One firing of the interval callback:
    [prev <= 1 ? (clearInterval(...), 0) : prev - 1]. *)
Definition tick (t : Timer.t) : Timer.t :=
  if Timer.ticking t then
    if Timer.timeLeft t <=? 1
    then {| Timer.timeLeft := 0; Timer.ticking := false |}
    else {| Timer.timeLeft := Timer.timeLeft t - 1; Timer.ticking := true |}
  else t.

(** [n] seconds pass. *)
Fixpoint ticks (n : nat) (t : Timer.t) : Timer.t :=
  match n with
  | O => t
  | S k => ticks k (tick t)
  end.

(** The timer part of [loadGameRoom].  [getTime] is
    [new Date(iso).getTime()], [None] for a text that is no date ([NaN], which
    fails [remaining > 0]); [dateNow] is [Date.now()], both in
    milliseconds. *)
Definition reloadTimer (getTime : string -> option Z) (dateNow : Z)
    (gameRoom : Room.t) (t : Timer.t) : Timer.t :=
  match Room.roundStartTime gameRoom with
  | Some iso =>
      if bool_decide (Room.gameState gameRoom = playing)
         && negb (bool_decide (iso = ""))
      then
        match getTime iso with
        | Some start =>
            let elapsed := (dateNow - start) / 1000 in
            let remaining := Z.max 0 (Room.roundTime gameRoom - elapsed) in
            if 0 <? remaining then startTimer remaining else t
        | None => t
        end
      else t
  | None => t
  end.

(** [s.split(sep)] for a separator that is one character of a class:
    [split(',')] and [split(/[,\n]/)]. *)
Fixpoint splitOn (isSep : ascii -> bool) (s : string) : list string :=
  match s with
  | EmptyString => [EmptyString]
  | String c s' =>
      if isSep c then EmptyString :: splitOn isSep s'
      else
        match splitOn isSep s' with
        | h :: t => String c h :: t
        | [] => [String c EmptyString]
        end
  end.

Definition isComma (c : ascii) : bool := bool_decide (c = ","%char).

(** The class [[,\n]]. *)
Definition isCommaOrNewline (c : ascii) : bool :=
  bool_decide (c = ","%char) || bool_decide (c = "010"%char).

(** [l.join(sep)] *)
Fixpoint joinWith (sep : string) (l : list string) : string :=
  match l with
  | [] => ""
  | [w] => w
  | w :: l' => w +:+ sep +:+ joinWith sep l'
  end.

(** [l[Math.floor(random * l.length)]], [None] for [undefined]. *)
Definition pick {A} (random : Q) (l : list A) : option A :=
  let i := Qfloor (random * inject_Z (Z.of_nat (length l)))%Q in
  if i <? 0 then None else l !! Z.to_nat i.

(** A row of [wordCategories]. *)
Record WordCategory := { difficulty : string; words : string }.

(** The columns [customWords] and [difficulty] of the room row, which
    [getRandomWord] reads through [room?.]. *)
Record RoomOptions := {
  customWords : option string;
  roomDifficulty : option string
}.

(** [x || fallback] on an optional string: [null], [undefined] and [""] are
    falsy. *)
Definition orElse (x : option string) (fallback : string) : string :=
  match x with
  | Some s => if bool_decide (s = "") then fallback else s
  | None => fallback
  end.

(** The second half of [getRandomWord()]: a random word of a random category
    of the room's difficulty.  [wordCategories] is the table, [None] when
    listing it throws (the [catch] returns ['cat']). *)
Definition categoryWord (opts : RoomOptions)
    (wordCategories : option (list WordCategory)) (random1 random2 : Q)
    : option string :=
  match wordCategories with
  | None => Some "cat"
  | Some table =>
      let categories :=
        filter (fun c => difficulty c = orElse (roomDifficulty opts) "medium") table in
      match categories with
      | [] => Some "cat" (* fallback *)
      | _ =>
          (* Pick random category and word *)
          match pick random1 categories with
          | None => Some "cat" (* randomCategory.words throws *)
          | Some randomCategory =>
              pick random2 (splitOn isComma (words randomCategory))
          end
      end
  end.

(** [getRandomWord()].  [random1] and [random2] are the successive values of
    [Math.random()].  The result is [None] where the source yields
    [undefined]. *)
Definition getRandomWord (opts : RoomOptions)
    (wordCategories : option (list WordCategory)) (random1 random2 : Q)
    : option string :=
  match customWords opts with
  | Some cw =>
      if negb (bool_decide (cw = "")) then
        (* Check if room has custom words *)
        let customWordList := splitOn isComma cw in
        pick random1 customWordList
      else categoryWord opts wordCategories random1 random2
  | None => categoryWord opts wordCategories random1 random2
  end.

(** [joinRoom] of [GameRoom]: one [roomPlayers] row for the user, score 0.
    A refused create throws into the [catch]. *)
Definition joinRoom (v : View) (db : DB) : DB :=
  match user v, room v with
  | Some u, Some r =>
      let row :=
        {| Player.id := "player_" +:+ User.id u +:+ "_" +:+ Room.id r;
           Player.roomId := Room.id r;
           Player.userId := User.id u;
           Player.displayName := displayNameOf u;
           Player.score := 0;
           Player.isReady := false |} in
      match createRow Player.id row (roomPlayers db) with
      | Some rows => with_roomPlayers (fun _ => rows) db
      | None => db
      end
  | _, _ => db
  end.

(** [players.find(p => p.userId === user?.id)] *)
Definition currentPlayer (v : View) : option Player.t :=
  match user v with
  | Some u => findFirst (fun p => bool_decide (Player.userId p = User.id u)) (players v)
  | None => None
  end.

(** The join control of the render function: shown while the room is waiting
    to a visitor who has no player row in the loaded roster. *)
Definition joinControl (v : View) : bool :=
  match room v with
  | Some r =>
      bool_decide (Room.gameState r = waiting)
      && bool_decide (currentPlayer v = None)
  | None => false
  end.

(** ** ChatArea component: the message list *)

(** [loadMessages]: the first 50 messages of the room, oldest first
    ([orderBy: { createdAt: 'asc' }, limit: 50]). *)
Definition loadMessages (roomId : string) (db : DB) : list Message.t :=
  take 50 (filter (fun m => Message.roomId m = roomId) (gameMessages db)).

(** The text a message is rendered with: a correct guess shows a fixed
    phrase instead of its text. *)
Definition renderedText (m : Message.t) : string :=
  if Message.isCorrect m then "Guessed the word correctly!" else Message.message m.

(** ** DrawingCanvas component: clearing and whole gestures *)

(** [blink.db.drawingStrokes.delete(id)] *)
Definition deleteStroke (i : string) (db : DB) : DB :=
  with_drawingStrokes (filter (fun s => Stroke.id s <> i)) db.

(** A pen gesture: mouse down at [p0], then one mouse move per point. *)
Definition gesture (covers : list Point -> Z -> Z -> Z -> bool)
    (props : CanvasProps) (p0 : Point) (moves : list Point) (st : CanvasState)
    : CanvasState :=
  foldl (fun st p => draw covers props p st) (startDrawing props p0 st) moves.

(** [clearCanvas()]: deletes the strokes of the room and round one by one,
    blanks the canvas and empties the local list. *)
Definition clearCanvas (props : CanvasProps) (st : CanvasState) (db : DB)
    : CanvasState * DB :=
  if negb (propCanDraw props) then (st, db)
  else
    let currentStrokes :=
      filter (fun s => Stroke.roomId s = canvasRoomId props
                       /\ Stroke.roundNumber s = propCurrentRound props)
             (drawingStrokes db) in
    let db' := foldl (fun db s => deleteStroke (Stroke.id s) db) db currentStrokes in
    (set_strokes []
       (set_ctx (fun c => fillRect (set_fillStyle "#ffffff" (clearRect c))) st),
     db').

(** The strokes of a log that [redrawCanvas] draws: those whose JSON parses
    and that have at least two points. *)
Definition drawnStrokes (log : list Stroke.t) : list StrokeData :=
  filter (fun sd => (2 <= length (points sd))%nat)
         (omap Stroke.strokeData log).

(** The last stroke of a list that covers a pixel. *)
Definition lastCovering (covers : list Point -> Z -> Z -> Z -> bool)
    (l : list StrokeData) (x y : Z) : option StrokeData :=
  last (filter (fun sd => covers (points sd) (size sd) x y = true) l).

(** ** PlayerList component *)

(** [interface Player] of PlayerList. *)
Module Listed.
Record t := {
  id : string;
  userId : string;
  displayName : string;
  score : Z;
  isReady : bool;
  team : option string
}.
End Listed.

(** Insertion into a list sorted by descending score, before the first
    element that does not score higher. *)
Fixpoint insertDesc {A} (score : A -> Z) (p : A) (l : list A) : list A :=
  match l with
  | [] => [p]
  | q :: l' =>
      if score q <=? score p then p :: q :: l'
      else q :: insertDesc score p l'
  end.

(** [[...players].sort((a, b) => b.score - a.score)]: [Array.prototype.sort]
    is stable, which fixes the result; it is computed here by insertion. *)
Definition sortedPlayers (players : list Listed.t) : list Listed.t :=
  foldr (insertDesc Listed.score) [] players.

Inductive Badge := DrawingBadge | LeaderBadge | NoBadge.

(** [getPlayerBadge(player, index)] *)
Definition getPlayerBadge (currentDrawerId : option string) (player : Listed.t)
    (index : nat) : Badge :=
  if bool_decide (Some (Listed.userId player) = currentDrawerId) then DrawingBadge
  else if bool_decide (index = 0%nat) && (0 <? Listed.score player) then LeaderBadge
  else NoBadge.

(** The rows of the regular list: [sortedPlayers.map((player, index) => ...)]
    with the badge of each row. *)
Definition regularRows (currentDrawerId : option string) (players : list Listed.t)
    : list (Listed.t * Badge) :=
  imap (fun index player => (player, getPlayerBadge currentDrawerId player index))
       (sortedPlayers players).

Record TeamStats := {
  redTeam : list Listed.t;
  blueTeam : list Listed.t;
  redScore : Z;
  blueScore : Z
}.

(** [reduce((sum, p) => sum + p.score, 0)] *)
Definition sumScores (l : list Listed.t) : Z :=
  foldl (fun sum p => sum + Listed.score p) 0 l.

(** [getTeamStats()] *)
Definition getTeamStats (teamMode : bool) (players : list Listed.t) : option TeamStats :=
  if negb teamMode then None
  else
    let redTeam := filter (fun p => Listed.team p = Some "red") players in
    let blueTeam := filter (fun p => Listed.team p = Some "blue") players in
    Some {| redTeam := redTeam;
            blueTeam := blueTeam;
            redScore := sumScores redTeam;
            blueScore := sumScores blueTeam |}.

(** ** WordDisplay component *)

Definition upperChar (c : ascii) : ascii :=
  let n := nat_of_ascii c in
  if ((97 <=? n) && (n <=? 122))%nat then ascii_of_nat (n - 32) else c.

Fixpoint toUpperCase (s : string) : string :=
  match s with
  | EmptyString => EmptyString
  | String c s' => String (upperChar c) (toUpperCase s')
  end.

(** [word.split('').map(char => char === ' ' ? ' ' : '_')] *)
Fixpoint blanks (word : string) : list string :=
  match word with
  | EmptyString => []
  | String c word' =>
      (if bool_decide (c = " "%char) then " " else "_") :: blanks word'
  end.

(** [getWordDisplay()] *)
Definition getWordDisplay (word : string) (isDrawer : bool) : string :=
  if isDrawer then toUpperCase word
  else (* Show blanks for guessers *) joinWith " " (blanks word).

(** What [WordDisplay] shows of the word, [None] when it renders nothing
    ([gameState !== 'playing' || !word]). *)
Definition wordDisplay (word : option string) (isDrawer : bool)
    (gameState : GameState) : option string :=
  match word with
  | Some w =>
      if negb (bool_decide (gameState = playing)) || bool_decide (w = "") then None
      else Some (getWordDisplay w isDrawer)
  | None => None
  end.

(** ** HomePage component *)

(** [s.charAt(i)]: the empty string out of range. *)
Definition charAt (s : string) (i : Z) : string :=
  if i <? 0 then ""
  else
    match String.get (Z.to_nat i) s with
    | Some c => String c EmptyString
    | None => ""
    end.

Definition codeChars : string := "ABCDEFGHIJKLMNOPQRSTUVWXYZ0123456789".

(** [generateRoomCode()] of the first home page: six characters drawn from
    [chars]; [random i] is the value of [Math.random()] in iteration [i]. *)
Definition generateRoomCode (random : nat -> Q) : string :=
  foldl
    (fun result i =>
       result +:+ charAt codeChars
                    (Qfloor (random i * inject_Z (Z.of_nat (String.length codeChars)))%Q))
    "" (seq 0 6).

(** Rows as the home page with settings writes them. *)
Module HomeRoom.
Record t := {
  id : string;
  hostId : string;
  status : string;
  currentRound : Z;
  maxRounds : Z;
  roundTimeLimit : Z;
  difficulty : string;
  customWords : option string;
  teamMode : bool;
  createdAt : string
}.
End HomeRoom.

Module HomePlayer.
Record t := {
  id : string;
  roomId : string;
  userId : string;
  playerName : string;
  score : Z;
  isDrawing : bool;
  team : option string;
  joinedAt : string
}.
End HomePlayer.

Record HomeDB := {
  homeRooms : list HomeRoom.t;
  homePlayers : list HomePlayer.t
}.

(** The custom words of the form as [createRoom] processes them:
    [customWords.split(/[,\n]/).map(word => word.trim().toLowerCase())
       .filter(word => word.length > 0)]. *)
Definition processWords (customWords : string) : list string :=
  filter (fun word => word <> "")
         ((fun word => toLowerCase (trim word)) <$> splitOn isCommaOrNewline customWords).

Inductive CreateOutcome :=
  | CreateIgnored
  | TooFewWords
  | Created (roomCode : string)
  | CreateFailed.

(** [createRoom()]: [roomCode] is [generateRoomCode()], [now] is
    [new Date().toISOString()]. *)
Definition createRoom (user : option User.t) (difficulty customWords : string)
    (teamMode : bool) (roomCode now : string) (db : HomeDB)
    : HomeDB * CreateOutcome :=
  match user with
  | None => (db, CreateIgnored)
  | Some u =>
      let custom := negb (bool_decide (trim customWords = "")) in
      let words := processWords customWords in
      if custom && (Z.of_nat (length words) <? 5) then (db, TooFewWords)
      else
        let processedCustomWords :=
          if custom then Some (joinWith "," words) else None in
        let roomRow :=
          {| HomeRoom.id := roomCode;
             HomeRoom.hostId := User.id u;
             HomeRoom.status := "waiting";
             HomeRoom.currentRound := 0;
             HomeRoom.maxRounds := 3;
             HomeRoom.roundTimeLimit := 60;
             HomeRoom.difficulty := difficulty;
             HomeRoom.customWords := processedCustomWords;
             HomeRoom.teamMode := teamMode;
             HomeRoom.createdAt := now |} in
        let playerRow :=
          {| HomePlayer.id := roomCode +:+ "_" +:+ User.id u;
             HomePlayer.roomId := roomCode;
             HomePlayer.userId := User.id u;
             HomePlayer.playerName := displayNameOf u;
             HomePlayer.score := 0;
             HomePlayer.isDrawing := false;
             HomePlayer.team := if teamMode then Some "red" else None;
             HomePlayer.joinedAt := now |} in
        match createRow HomeRoom.id roomRow (homeRooms db) with
        | None => (db, CreateFailed)
        | Some rooms =>
            match createRow HomePlayer.id playerRow (homePlayers db) with
            | None =>
                ({| homeRooms := rooms; homePlayers := homePlayers db |}, CreateFailed)
            | Some players =>
                ({| homeRooms := rooms; homePlayers := players |}, Created roomCode)
            end
        end
  end.

Inductive JoinOutcome :=
  | JoinIgnored
  | RoomNotFound
  | GameFinished
  | JoinedRoom (roomId : string)
  | JoinFailed.

(** The team of a new player in team mode:
    [redTeamCount <= blueTeamCount ? 'red' : 'blue'] over the room's rows. *)
Definition nextTeam (roomId : string) (db : HomeDB) : string :=
  let players := filter (fun p => HomePlayer.roomId p = roomId) (homePlayers db) in
  let redTeamCount := length (filter (fun p => HomePlayer.team p = Some "red") players) in
  let blueTeamCount := length (filter (fun p => HomePlayer.team p = Some "blue") players) in
  if (redTeamCount <=? blueTeamCount)%nat then "red" else "blue".

(** [joinRoom()] of the home page. *)
Definition homeJoinRoom (user : option User.t) (joinCode now : string) (db : HomeDB)
    : HomeDB * JoinOutcome :=
  match user with
  | None => (db, JoinIgnored)
  | Some u =>
      if bool_decide (trim joinCode = "") then (db, JoinIgnored)
      else
        match findFirst (fun r => bool_decide (HomeRoom.id r = toUpperCase joinCode))
                        (homeRooms db) with
        | None => (db, RoomNotFound)
        | Some room =>
            if bool_decide (HomeRoom.status room = "finished") then (db, GameFinished)
            else
              let existingPlayer :=
                filter (fun p => HomePlayer.roomId p = HomeRoom.id room
                                 /\ HomePlayer.userId p = User.id u) (homePlayers db) in
              match existingPlayer with
              | _ :: _ => (db, JoinedRoom (HomeRoom.id room))
              | [] =>
                  (* Determine team for new player in team mode *)
                  let playerTeam :=
                    if HomeRoom.teamMode room
                    then Some (nextTeam (HomeRoom.id room) db) else None in
                  let row :=
                    {| HomePlayer.id := HomeRoom.id room +:+ "_" +:+ User.id u;
                       HomePlayer.roomId := HomeRoom.id room;
                       HomePlayer.userId := User.id u;
                       HomePlayer.playerName := displayNameOf u;
                       HomePlayer.score := 0;
                       HomePlayer.isDrawing := false;
                       HomePlayer.team := playerTeam;
                       HomePlayer.joinedAt := now |} in
                  match createRow HomePlayer.id row (homePlayers db) with
                  | Some players =>
                      ({| homeRooms := homeRooms db; homePlayers := players |},
                       JoinedRoom (HomeRoom.id room))
                  | None => (db, JoinFailed)
                  end
              end
        end
  end.

(** ** Vocabulary of the further properties *)

(** Whether a string holds a character of a class. *)
Fixpoint hasChar (f : ascii -> bool) (s : string) : bool :=
  match s with
  | EmptyString => false
  | String c s' => f c || hasChar f s'
  end.


(** One submission to the chat of a room while a round with the word [w] is
    played: [sendMessage] by [sender], then the [gameMessages.create] of the
    row it built. *)
Record Submission := {
  sender : option User.t;
  senderIsDrawer : bool;
  text : string;
  messageId : string
}.

Definition submit (roomId w : string) (db : DB) (s : Submission) : DB :=
  let props := {| chatRoomId := roomId;
                  currentWord := Some w;
                  chatIsDrawer := senderIsDrawer s;
                  chatGameState := playing |} in
  match sendMessage props (sender s) (text s) (messageId s) with
  | Some sent => storeMessage (messageData sent) db
  | None => db
  end.

(** Where a word has its spaces. *)
Fixpoint spacePattern (w : string) : list bool :=
  match w with
  | EmptyString => []
  | String c w' => bool_decide (c = " "%char) :: spacePattern w'
  end.

(** An upper-case letter or a digit. *)
Definition isCodeChar (c : ascii) : bool :=
  let n := nat_of_ascii c in
  (((65 <=? n) && (n <=? 90)) || ((48 <=? n) && (n <=? 57)))%nat.

(** The number of players of a room on a team. *)
Definition teamCount (team roomId : string) (db : HomeDB) : nat :=
  length (filter (fun p => HomePlayer.team p = Some team)
            (filter (fun p => HomePlayer.roomId p = roomId) (homePlayers db))).

(** Red has as many players as blue, or one more. *)
Definition balanced (roomId : string) (db : HomeDB) : Prop :=
  (teamCount "blue" roomId db <= teamCount "red" roomId db
   <= teamCount "blue" roomId db + 1)%nat.

(** The number of rows a user has in a room. *)
Definition rowsOf (roomId userId : string) (db : HomeDB) : nat :=
  length (filter (fun p => HomePlayer.roomId p = roomId /\ HomePlayer.userId p = userId)
            (homePlayers db)).

(** ** More sample data *)
Module Ex2.

(** A crude rasteriser for the samples: a path covers the pixels of its own
    points. *)
Definition raster (path : list Point) (width x y : Z) : bool :=
  existsb (fun p => (px p =? x) && (py p =? y)) path.

Definition p10 : Point := {| px := 10; py := 10 |}.
Definition p20 : Point := {| px := 20; py := 20 |}.

Definition penStroke : Stroke.t :=
  {| Stroke.id := "stroke_2";
     Stroke.roomId := "room_1";
     Stroke.roundNumber := 1;
     Stroke.strokeData :=
       Some {| points := [p10; p20]; color := "#FF6B6B"; size := 5; isEraser := false |} |}.

(** The props of the drawer's canvas in round 2. *)
Definition round2Props : CanvasProps :=
  {| canvasRoomId := "room_1"; propCanDraw := true; propCurrentRound := 2 |}.

Definition listed (userId : string) (score : Z) (team : option string) : Listed.t :=
  {| Listed.id := "player_" +:+ userId;
     Listed.userId := userId;
     Listed.displayName := userId;
     Listed.score := score;
     Listed.isReady := false;
     Listed.team := team |}.

(** A team-mode room the home page created, with its host on the red
    team. *)
Definition teamRoom : HomeDB :=
  (createRoom (Some Ex.alice) "medium" "" true "ABC123" Ex.now
     {| homeRooms := []; homePlayers := [] |}).1.

End Ex2.
(** * Properties *)

(** ** Store lemmas *)

Section StoreLemmas.
Context {A : Type}.
Implicit Types (rows : list A) (p : A -> bool).

Lemma findFirst_cons p r rows :
  findFirst p (r :: rows) = if p r then Some r else findFirst p rows.
Proof.
  unfold findFirst. rewrite filter_cons.
  destruct (p r) eqn:E; case_decide; try congruence; reflexivity.
Qed.

Lemma findFirst_Some_pred p rows r : findFirst p rows = Some r -> p r = true.
Proof.
  induction rows as [|q rows IH]; [discriminate|].
  rewrite findFirst_cons. destruct (p q) eqn:E; [|exact IH].
  intros [= <-]. exact E.
Qed.

Lemma findFirst_Some_elem p rows r : findFirst p rows = Some r -> r ∈ rows.
Proof.
  induction rows as [|q rows IH]; [discriminate|].
  rewrite findFirst_cons. destruct (p q).
  - intros [= <-]. left.
  - intros H. right. auto.
Qed.

Lemma findFirst_fmap p (f : A -> A) rows :
  (forall r, p (f r) = p r) ->
  findFirst p (f <$> rows) = f <$> findFirst p rows.
Proof.
  intros Hp. induction rows as [|q rows IH]; [reflexivity|].
  rewrite fmap_cons, !findFirst_cons, Hp. destruct (p q); [reflexivity|exact IH].
Qed.

Variable getId : A -> string.

Lemma findFirst_updateById p i (patch : A -> A) rows :
  (forall r, p (patch r) = p r) ->
  findFirst p (updateById getId i patch rows)
  = (fun r => if decide (getId r = i) then patch r else r) <$> findFirst p rows.
Proof.
  intros Hp. unfold updateById. apply findFirst_fmap.
  intros r. case_decide; [apply Hp|reflexivity].
Qed.

End StoreLemmas.

(** ** Scoring *)










Example calculatePoints_59 : calculatePoints 59 defaultMaxTime = 149.
Proof. vm_compute. reflexivity. Qed.

Example calculatePoints_10 : calculatePoints 10 defaultMaxTime = 108.
Proof. vm_compute. reflexivity. Qed.

Example calculatePoints_negative : calculatePoints (-90) defaultMaxTime = 50.
Proof. vm_compute. reflexivity. Qed.

(** The product [29 / 50 * 50] of doubles is the double just below 29. *)
Example timeBonus_29_of_50 :
  (number 29 / number 50 * 50 <? 29)%float = true
  /\ Math_floor (number 29 / number 50 * 50)%float = 28%float.
Proof. vm_compute. split; reflexivity. Qed.

Example Math_floor_negative : Math_floor (-0.5)%float = (-1)%float.
Proof. vm_compute. reflexivity. Qed.

Example whole_number : whole (number (-9007199254740991)) = -9007199254740991.
Proof. vm_compute. reflexivity. Qed.




(** ** Chat messages *)

Lemma sendMessage_Some props user newMessage msgId sent :
  sendMessage props user newMessage msgId = Some sent ->
  exists u,
    user = Some u
    /\ trim newMessage <> ""
    /\ Message.isGuess (messageData sent)
       = bool_decide (chatGameState props = playing) && negb (chatIsDrawer props)
    /\ Message.isCorrect (messageData sent)
       = Message.isGuess (messageData sent)
         && match currentWord props with
            | None => false
            | Some w => negb (bool_decide (w = ""))
                        && bool_decide (trim (toLowerCase newMessage) = toLowerCase w)
            end
    /\ onCorrectGuess sent
       = if Message.isCorrect (messageData sent)
         then Some (User.id u, calculatePoints 60 defaultMaxTime) else None.
Proof.
  unfold sendMessage. destruct user as [u|]; [|discriminate].
  case_bool_decide as Hblank; [discriminate|].
  destruct (chatIsDrawer props && bool_decide (chatGameState props = playing)); [discriminate|].
  intros [= <-]. exists u. simpl. repeat split; auto.
Qed.

(** C10.  Every correct guess that [sendMessage] processes is awarded
    [calculatePoints(60)], which with the default [maxTime = 60] is the
    constant 150: the handler has no time-left input at all. *)
Theorem correct_guess_awards_150 props user newMessage msgId sent :
  sendMessage props user newMessage msgId = Some sent ->
  Message.isCorrect (messageData sent) = true ->
  exists u,
    user = Some u
    /\ onCorrectGuess sent = Some (User.id u, 150)
    /\ calculatePoints 60 defaultMaxTime = 150.
Proof.
  intros Hs Hc. apply sendMessage_Some in Hs as (u & -> & _ & _ & _ & Haward).
  rewrite Hc in Haward. exists u.
  split; [reflexivity|]. split; [|reflexivity].
  rewrite Haward. reflexivity.
Qed.

Lemma correct_guess_awards_150_witness :
  exists sent,
    sendMessage (Ex.guesserProps "cat") (Some Ex.bob) " Cat " "msg_1" = Some sent
    /\ Message.isCorrect (messageData sent) = true
    /\ exists u,
         Some Ex.bob = Some u
         /\ onCorrectGuess sent = Some (User.id u, 150)
         /\ calculatePoints 60 defaultMaxTime = 150.
Proof.
  eexists. split; [vm_compute; reflexivity|]. split; [reflexivity|].
  eapply (correct_guess_awards_150 (Ex.guesserProps "cat") (Some Ex.bob) " Cat " "msg_1");
    reflexivity.
Defined.

Example trim_keeps_inner_space : trim "  ice  cream " = "ice  cream".
Proof. reflexivity. Qed.

Example toLowerCase_trim : trim (toLowerCase " Cat ") = "cat".
Proof. reflexivity. Qed.

Lemma isSpace_lowerChar c : isSpace (lowerChar c) = isSpace c.
Proof. destruct c as [[] [] [] [] [] [] [] []]; reflexivity. Qed.

Lemma toLowerCase_empty s : toLowerCase s = "" <-> s = "".
Proof. destruct s; simpl; split; congruence. Qed.

Lemma trimStart_toLowerCase s : trimStart (toLowerCase s) = toLowerCase (trimStart s).
Proof.
  induction s as [|c s IH]; [reflexivity|].
  simpl. rewrite isSpace_lowerChar. destruct (isSpace c); [exact IH|reflexivity].
Qed.

Lemma trimEnd_toLowerCase s : trimEnd (toLowerCase s) = toLowerCase (trimEnd s).
Proof.
  induction s as [|c s IH]; [reflexivity|].
  simpl. rewrite isSpace_lowerChar, IH.
  destruct (isSpace c); simpl; [|reflexivity].
  repeat case_bool_decide; try reflexivity.
  - exfalso. apply (proj1 (toLowerCase_empty _)) in H. contradiction.
  - exfalso. apply H. apply (proj2 (toLowerCase_empty _)). assumption.
Qed.

Lemma trim_toLowerCase s : trim (toLowerCase s) = toLowerCase (trim s).
Proof. unfold trim. now rewrite trimStart_toLowerCase, trimEnd_toLowerCase. Qed.

(** C5 (as stated, refuted).  The secret word is lower-cased but not trimmed:
    against the stored word [" cat"] the guess ["cat"] is a guess, equals the
    word under the specification's normalisation, and is not marked
    correct. *)
Lemma untrimmed_word_never_matches :
  exists sent,
    sendMessage (Ex.guesserProps " cat") (Some Ex.bob) "cat" "msg_1" = Some sent
    /\ Message.isGuess (messageData sent) = true
    /\ spec_normalize "cat" = spec_normalize " cat"
    /\ Message.isCorrect (messageData sent) = false.
Proof. eexists. vm_compute. repeat split. Qed.

(** C5 (amended).  A submitted message is a guess iff the room is playing and
    the author is not the drawer.  It is marked correct iff it is a guess, a
    non-empty secret word is set, and the text lower-cased and trimmed equals
    the secret word lower-cased (the word is not trimmed); for a secret word
    free of surrounding white space that is equality under one and the same
    normalisation. *)
Theorem guess_classification props user newMessage msgId sent :
  sendMessage props user newMessage msgId = Some sent ->
  let m := messageData sent in
  (Message.isGuess m = true
   <-> chatGameState props = playing /\ chatIsDrawer props = false)
  /\ (Message.isCorrect m = true
      <-> Message.isGuess m = true
          /\ exists w, currentWord props = Some w /\ w <> ""
                       /\ trim (toLowerCase newMessage) = toLowerCase w)
  /\ (forall w, currentWord props = Some w -> trim w = w ->
      (Message.isCorrect m = true
       <-> Message.isGuess m = true /\ spec_normalize newMessage = spec_normalize w)).
Proof.
  intros Hs m. subst m.
  apply sendMessage_Some in Hs as (u & -> & Hblank & Hg & Hc & _).
  assert (Message.isCorrect (messageData sent) = true
      <-> Message.isGuess (messageData sent) = true
          /\ exists w, currentWord props = Some w /\ w <> ""
                       /\ trim (toLowerCase newMessage) = toLowerCase w) as Hcorrect.
  { rewrite Hc. rewrite andb_true_iff.
    destruct (currentWord props) as [w|].
    - rewrite andb_true_iff, negb_true_iff, bool_decide_eq_false, bool_decide_eq_true.
      split.
      + intros (? & ? & ?). split; [assumption|]. exists w. auto.
      + intros (? & w' & [= <-] & ? & ?). auto.
    - split; [intros [_ [=]]|intros (_ & w & [=] & _)]. }
  split; [|split; [exact Hcorrect|]].
  - rewrite Hg, andb_true_iff, bool_decide_eq_true, negb_true_iff. reflexivity.
  - intros w Hw Htrim. rewrite Hcorrect. unfold spec_normalize.
    rewrite (trim_toLowerCase w), Htrim.
    split.
    + intros (? & w' & Hw' & _ & ?). rewrite Hw in Hw'. injection Hw' as <-. auto.
    + intros [? Heq]. split; [assumption|]. exists w. repeat split; try assumption.
      intros ->. rewrite trim_toLowerCase in Heq. simpl in Heq.
      apply (proj1 (toLowerCase_empty _)) in Heq. contradiction.
Qed.

Lemma guess_classification_witness :
  exists sent,
    sendMessage (Ex.guesserProps "cat") (Some Ex.bob) " Cat " "msg_1" = Some sent
    /\ (Message.isGuess (messageData sent) = true
         <-> playing = playing /\ false = false)
    /\ (Message.isCorrect (messageData sent) = true
         <-> Message.isGuess (messageData sent) = true
             /\ exists w, Some "cat" = Some w /\ w <> ""
                          /\ trim (toLowerCase " Cat ") = toLowerCase w)
    /\ (forall w, Some "cat" = Some w -> trim w = w ->
         (Message.isCorrect (messageData sent) = true
          <-> Message.isGuess (messageData sent) = true
              /\ spec_normalize " Cat " = spec_normalize w)).
Proof.
  eexists. split; [vm_compute; reflexivity|].
  eapply (guess_classification (Ex.guesserProps "cat") (Some Ex.bob) " Cat " "msg_1").
  reflexivity.
Defined.

(** ** Drawer rotation *)

Example nextDrawer_wraps :
  Player.userId <$> nextDrawer [Ex.playerRow Ex.alice 0; Ex.playerRow Ex.bob 0] (Some "u_bob")
  = Some "u_alice".
Proof. reflexivity. Qed.

Example nextDrawer_without_drawer :
  Player.userId <$> nextDrawer [Ex.playerRow Ex.alice 0; Ex.playerRow Ex.bob 0] None
  = Some "u_alice".
Proof. reflexivity. Qed.

Example nextDrawer_empty : nextDrawer [] (Some "u_bob") = None.
Proof. reflexivity. Qed.

Lemma findIndex_lookup players i d :
  NoDup (Player.userId <$> players) ->
  players !! i = Some d ->
  findIndex (Some (Player.userId d)) players = Z.of_nat i.
Proof.
  intros Hnd Hi. unfold findIndex.
  assert (list_find (fun p => Some (Player.userId p) = Some (Player.userId d)) players
          = Some (i, d)) as ->; [|reflexivity].
  apply list_find_Some. split; [exact Hi|]. split; [reflexivity|].
  intros j y Hj Hlt [= Heq].
  assert (j = i); [|lia].
  eapply (NoDup_lookup _ j i (Player.userId d) Hnd).
  - rewrite list_lookup_fmap, Hj. simpl. now rewrite Heq.
  - rewrite list_lookup_fmap, Hi. reflexivity.
Qed.

Lemma findIndex_absent players drawerId :
  (forall p, p ∈ players -> Some (Player.userId p) <> drawerId) ->
  findIndex drawerId players = -1.
Proof.
  intros Habs. unfold findIndex.
  assert (list_find (fun p => Some (Player.userId p) = drawerId) players = None) as ->;
    [|reflexivity].
  apply list_find_None, Forall_forall. exact Habs.
Qed.

Lemma nextDrawer_lookup players i d :
  NoDup (Player.userId <$> players) ->
  players !! i = Some d ->
  nextDrawer players (Some (Player.userId d))
  = players !! ((i + 1) `mod` length players)%nat.
Proof.
  intros Hnd Hi. unfold nextDrawer. rewrite (findIndex_lookup _ _ _ Hnd Hi).
  case_decide as Hnil; [subst; discriminate|]. cbv zeta.
  f_equal.
  replace (Z.of_nat i + 1) with (Z.of_nat (i + 1)) by lia.
  rewrite <- Nat2Z.inj_mod. apply Nat2Z.id.
Qed.

Lemma nextDrawer_is_Some players drawerId :
  players <> [] -> is_Some (nextDrawer players drawerId).
Proof.
  intros Hne. unfold nextDrawer. case_decide; [contradiction|]. cbv zeta.
  apply lookup_lt_is_Some.
  assert (0 < Z.of_nat (length players)) as Hlen.
  { destruct players; [contradiction|]. simpl. lia. }
  pose proof (Z.mod_pos_bound (findIndex drawerId players + 1) _ Hlen). lia.
Qed.

Lemma drawerSequence_lookup players :
  NoDup (Player.userId <$> players) ->
  forall k i d j,
    players !! i = Some d ->
    drawerSequence players (Some (Player.userId d)) k !! j
    = if decide (j < k)%nat
      then players !! ((i + 1 + j) `mod` length players)%nat
      else None.
Proof.
  intros Hnd. induction k as [|k IH]; intros i d j Hi.
  - cbn [drawerSequence]. destruct (decide (j < 0)%nat); [lia|reflexivity].
  - cbn [drawerSequence]. rewrite (nextDrawer_lookup _ _ _ Hnd Hi).
    assert (length players <> 0)%nat as Hlen.
    { apply lookup_lt_Some in Hi. lia. }
    destruct (players !! ((i + 1) `mod` length players)%nat) as [d'|] eqn:Hd'.
    2:{ apply lookup_ge_None in Hd'.
        pose proof (Nat.mod_upper_bound (i + 1) _ Hlen). lia. }
    destruct j as [|j].
    + destruct (decide (0 < S k)%nat); [|lia].
      rewrite Nat.add_0_r. cbn. now rewrite Hd'.
    + change ((d' :: drawerSequence players (Some (Player.userId d')) k) !! S j)
        with (drawerSequence players (Some (Player.userId d')) k !! j).
      rewrite (IH _ _ j Hd').
      destruct (decide (j < k)%nat), (decide (S j < S k)%nat); try lia; [|reflexivity].
      f_equal. rewrite <- Nat.add_assoc, Nat.Div0.add_mod_idemp_l.
      reflexivity.
Qed.

Lemma rotate_Permutation {A} (n : nat) (l : list A) : rotate n l ≡ₚ l.
Proof.
  unfold rotate. rewrite Permutation_app_comm. now rewrite take_drop.
Qed.

Lemma drawerSequence_rotate players i d :
  NoDup (Player.userId <$> players) ->
  players !! i = Some d ->
  drawerSequence players (Some (Player.userId d)) (length players)
  = rotate (S i) players.
Proof.
  intros Hnd Hi. apply list_eq. intros j.
  rewrite (drawerSequence_lookup _ Hnd _ _ _ j Hi).
  assert (length players <> 0)%nat as Hlen.
  { apply lookup_lt_Some in Hi. lia. }
  case_decide as Hj.
  - rewrite lookup_rotate_r by assumption. f_equal.
    unfold rotate_nat_add.
    replace (Z.of_nat (S i) + Z.of_nat j) with (Z.of_nat (i + 1 + j)) by lia.
    rewrite <- Nat2Z.inj_mod. now rewrite Nat2Z.id.
  - symmetry. apply lookup_ge_None. rewrite length_rotate. lia.
Qed.

(** When the current drawer is not in the loaded roster (or none is set), the
    first player of the roster is next. *)
Lemma nextDrawer_absent players drawerId :
  (forall p, p ∈ players -> Some (Player.userId p) <> drawerId) ->
  nextDrawer players drawerId = players !! 0%nat.
Proof.
  intros Habs. unfold nextDrawer. rewrite (findIndex_absent _ _ Habs).
  case_decide as Hnil; [now subst|]. cbv zeta.
  destruct players as [|p l]; [contradiction|].
  rewrite Z.mod_small; [reflexivity|]. simpl. lia.
Qed.

(** With at least two players, each listed once, the next drawer is never
    the current one. *)
Lemma nextDrawer_differs players drawerId d :
  NoDup (Player.userId <$> players) ->
  (2 <= length players)%nat ->
  nextDrawer players drawerId = Some d ->
  Some (Player.userId d) <> drawerId.
Proof.
  intros Hnd Hlen Hd.
  destruct (list_find (fun p => Some (Player.userId p) = drawerId) players)
    as [[i c]|] eqn:Hfind.
  - apply list_find_Some in Hfind as (Hi & Hc & _). subst drawerId.
    rewrite (nextDrawer_lookup _ _ _ Hnd Hi) in Hd.
    intros [= Heq].
    assert (((i + 1) `mod` length players)%nat = i) as Hsame.
    { apply (NoDup_lookup _ _ _ (Player.userId c) Hnd);
        rewrite list_lookup_fmap; [rewrite Hd|rewrite Hi]; simpl; congruence. }
    apply lookup_lt_Some in Hi.
    destruct (decide (i + 1 = length players)%nat) as [Hlast|Hmid].
    + rewrite Hlast, Nat.Div0.mod_same in Hsame. lia.
    + rewrite Nat.mod_small in Hsame; lia.
  - apply list_find_None in Hfind. rewrite Forall_forall in Hfind.
    rewrite nextDrawer_absent in Hd by (intros p Hp; now apply Hfind).
    apply Hfind. eapply list_elem_of_lookup_2, Hd.
Qed.

(** ** Room rows under the operations *)

Lemma roomById_update i j patch db :
  (forall x, Room.id (patch x) = Room.id x) ->
  roomById j (with_gameRooms (updateById Room.id i patch) db)
  = (fun r => if decide (Room.id r = i) then patch r else r) <$> roomById j db.
Proof.
  intros Hid. unfold roomById. simpl. apply findFirst_updateById.
  intros r. now rewrite Hid.
Qed.

Lemma roomById_update_same patch db r :
  (forall x, Room.id (patch x) = Room.id x) ->
  roomById (Room.id r) db = Some r ->
  roomById (Room.id r) (with_gameRooms (updateById Room.id (Room.id r) patch) db)
  = Some (patch r).
Proof.
  intros Hid Hr. rewrite roomById_update, Hr by assumption. simpl.
  case_decide; [reflexivity|contradiction].
Qed.

Lemma roomById_update_other i j patch db :
  (forall x, Room.id (patch x) = Room.id x) ->
  j <> i ->
  roomById j (with_gameRooms (updateById Room.id i patch) db) = roomById j db.
Proof.
  intros Hid Hne. rewrite roomById_update by assumption.
  destruct (roomById j db) as [x|] eqn:Hx; [|reflexivity]. simpl.
  apply findFirst_Some_pred, bool_decide_eq_true in Hx.
  case_decide; [congruence|reflexivity].
Qed.

Lemma createStats_gameRooms roomId n drawer word db :
  gameRooms (createStats roomId n drawer word db) = gameRooms db.
Proof. unfold createStats. destruct (createRow _ _ _); reflexivity. Qed.

Lemma createStats_roomById i roomId n drawer word db :
  roomById i (createStats roomId n drawer word db) = roomById i db.
Proof. unfold roomById. now rewrite createStats_gameRooms. Qed.

(** ** The end of the game and the next round *)

Lemma nextRound_finished v r u randomWord now db :
  room v = Some r ->
  user v = Some u ->
  Room.currentRound r + 1 > Room.maxRounds r ->
  nextRound v randomWord now db
  = with_gameRooms (updateById Room.id (Room.id r) finishedPatch) db.
Proof.
  intros Hroom Huser Hround. unfold nextRound. rewrite Hroom, Huser. cbv zeta.
  assert ((Room.currentRound r + 1 >? Room.maxRounds r) = true) as -> by lia.
  reflexivity.
Qed.

Lemma nextRound_advanced v r u randomWord now db :
  room v = Some r ->
  user v = Some u ->
  players v <> [] ->
  roomById (Room.id r) db = Some r ->
  Room.currentRound r + 1 <= Room.maxRounds r ->
  exists d,
    nextDrawer (players v) (Room.currentDrawerId r) = Some d
    /\ roomById (Room.id r) (nextRound v randomWord now db)
       = Some (roundPatch (Room.currentRound r + 1) (Player.userId d) randomWord now r).
Proof.
  intros Hroom Huser Hplayers Hsync Hround.
  unfold nextRound. rewrite Hroom, Huser. cbv zeta.
  assert ((Room.currentRound r + 1 >? Room.maxRounds r) = false) as -> by lia.
  destruct (nextDrawer_is_Some (players v) (Room.currentDrawerId r) Hplayers)
    as [d Hd].
  rewrite Hd. exists d. split; [reflexivity|].
  rewrite createStats_roomById. now apply roomById_update_same.
Qed.

(** C6.  For a room in state playing (the view holding the stored row, a
    signed-in user and a loaded roster): when [currentRound + 1 > maxRounds],
    [nextRound] sets the state to finished and changes nothing else, so the
    round counter stays where it was (at [maxRounds]) and drawer, word and
    round start are kept; otherwise the round counter is incremented and a
    new drawer, word and round-start timestamp are set.  The new drawer is
    the player after the current drawer in the loaded roster (the first
    player after the last, or when the current drawer is not in the roster),
    and with two or more players, each listed once, it is not the current
    drawer. *)
Theorem nextRound_finishes_or_advances v r u randomWord now db :
  room v = Some r ->
  user v = Some u ->
  players v <> [] ->
  Room.gameState r = playing ->
  roomById (Room.id r) db = Some r ->
  let db' := nextRound v randomWord now db in
  (Room.currentRound r + 1 > Room.maxRounds r ->
   (exists r',
      roomById (Room.id r) db' = Some r'
      /\ r' = finishedPatch r
      /\ Room.gameState r' = finished
      /\ Room.currentRound r' = Room.currentRound r
      /\ (Room.currentRound r <= Room.maxRounds r ->
          Room.currentRound r' = Room.maxRounds r)
      /\ Room.currentDrawerId r' = Room.currentDrawerId r
      /\ Room.currentWord r' = Room.currentWord r
      /\ Room.roundStartTime r' = Room.roundStartTime r)
   /\ (forall i, i <> Room.id r -> roomById i db' = roomById i db)
   /\ roomPlayers db' = roomPlayers db
   /\ gameStats db' = gameStats db
   /\ drawingStrokes db' = drawingStrokes db
   /\ gameMessages db' = gameMessages db)
  /\ (Room.currentRound r + 1 <= Room.maxRounds r ->
      exists d r',
        nextDrawer (players v) (Room.currentDrawerId r) = Some d
        /\ roomById (Room.id r) db' = Some r'
        /\ Room.gameState r' = playing
        /\ Room.currentRound r' = Room.currentRound r + 1
        /\ Room.currentDrawerId r' = Some (Player.userId d)
        /\ Room.currentWord r' = Some randomWord
        /\ Room.roundStartTime r' = Some now
        /\ (forall i c,
              NoDup (Player.userId <$> players v) ->
              players v !! i = Some c ->
              Room.currentDrawerId r = Some (Player.userId c) ->
              players v !! ((i + 1) `mod` length (players v))%nat = Some d)
        /\ ((forall p, p ∈ players v ->
                       Some (Player.userId p) <> Room.currentDrawerId r) ->
            players v !! 0%nat = Some d)
        /\ (NoDup (Player.userId <$> players v) ->
            (2 <= length (players v))%nat ->
            Some (Player.userId d) <> Room.currentDrawerId r
            /\ Room.currentDrawerId r' <> Room.currentDrawerId r)).
Proof.
  intros Hroom Huser Hplayers Hstate Hsync db'. subst db'.
  split; intros Hround.
  - rewrite (nextRound_finished v r u) by assumption.
    split; [|split; [|repeat split]].
    + exists (finishedPatch r).
      split; [now apply roomById_update_same|].
      repeat split. simpl. lia.
    + intros i Hi. now apply roomById_update_other.
  - destruct (nextRound_advanced v r u randomWord now db) as (d & Hd & Hr');
      try assumption.
    exists d. eexists. split; [exact Hd|]. split; [exact Hr'|].
    cbn [roundPatch Room.gameState Room.currentRound Room.currentDrawerId
         Room.currentWord Room.roundStartTime].
    split; [assumption|]. do 4 (split; [reflexivity|]).
    split; [|split].
    + intros i c Hnd Hi Hcur. rewrite Hcur in Hd.
      now rewrite (nextDrawer_lookup _ _ _ Hnd Hi) in Hd.
    + intros Habs. now rewrite (nextDrawer_absent _ _ Habs) in Hd.
    + intros Hnd Hlen.
      pose proof (nextDrawer_differs _ _ _ Hnd Hlen Hd) as Hnew. split; exact Hnew.
Qed.

(** The last round of the sample room ends the game; from round 1, with
    alice drawing and the roster carol, bob, alice, round 2 starts with carol
    drawing "dog". *)
Lemma nextRound_finishes_or_advances_witness :
  (let v := loadGameRoom "ABC123" (Ex.blank Ex.alice) Ex.lastRound in
   let db' := nextRound v "dog" Ex.now Ex.lastRound in
   Room.gameState <$> roomById "room_1" db' = Some finished
   /\ Room.currentRound <$> roomById "room_1" db' = Some 3)
  /\ (let v := loadGameRoom "ABC123" (Ex.blank Ex.alice) Ex.scored in
      let db' := nextRound v "dog" Ex.now Ex.scored in
      exists d r',
        players v !! 0%nat = Some d
        /\ Player.userId d = "u_carol"
        /\ roomById "room_1" db' = Some r'
        /\ Room.currentRound r' = 2
        /\ Room.currentDrawerId r' = Some "u_carol"
        /\ Room.currentDrawerId r' <> Some "u_alice"
        /\ Room.currentWord r' = Some "dog"
        /\ Room.roundStartTime r' = Some Ex.now).
Proof.
  split.
  - intros v db'.
    destruct (nextRound_finishes_or_advances v
                (Ex.roomRow playing 3 (Some "u_alice") (Some "cat")) Ex.alice
                "dog" Ex.now Ex.lastRound)
      as [Hfin _]; try reflexivity; try discriminate.
    destruct Hfin as [(r' & Hr' & _ & Hst & Hrd & _) _]; [reflexivity|].
    subst db'. change (Room.id (Ex.roomRow playing 3 (Some "u_alice") (Some "cat")))
      with "room_1" in Hr'.
    subst v. rewrite Hr'. simpl. rewrite Hst, Hrd. split; reflexivity.
  - intros v db'.
    destruct (nextRound_finishes_or_advances v
                (Ex.roomRow playing 1 (Some "u_alice") (Some "cat")) Ex.alice
                "dog" Ex.now Ex.scored)
      as [_ Hadv]; try reflexivity; try discriminate.
    destruct Hadv as (d & r' & _ & Hr' & _ & Hrd & Hdr & Hw & Hst & Hpos & _ & Hnew);
      [simpl; lia|].
    assert (NoDup (Player.userId <$> players v)) as Hnd
      by (apply (bool_decide_unpack _); vm_compute; exact I).
    specialize (Hpos 2%nat (Ex.playerRow Ex.alice 0) Hnd eq_refl eq_refl).
    destruct Hnew as [_ Hnew]; [exact Hnd|simpl; lia|].
    exists d, r'. split; [exact Hpos|].
    assert (Player.userId d = "u_carol") as Hcarol
      by (injection Hpos as <-; reflexivity).
    split; [exact Hcarol|]. split; [exact Hr'|]. split; [exact Hrd|].
    split; [now rewrite Hdr, Hcarol|]. split; [exact Hnew|].
    split; [exact Hw|exact Hst].
Defined.

(** C2 (as stated, refuted).  The roster [nextRound] walks is the one
    [loadGameRoom] loaded, ordered by descending score, not by join order:
    alice, bob and carol joined in that order, carol leads with 300 points and
    bob has 150, alice draws; the next drawer is carol, where the player after
    alice in join order is bob. *)
Lemma nextRound_follows_score_order :
  let v := loadGameRoom "ABC123" (Ex.blank Ex.alice) Ex.scored in
  Room.gameState <$> room v = Some playing
  /\ players v <> []
  /\ Player.userId <$> joinOrder "room_1" Ex.scored = ["u_alice"; "u_bob"; "u_carol"]
  /\ Player.userId <$> players v = ["u_carol"; "u_bob"; "u_alice"]
  /\ Room.currentDrawerId <$> roomById "room_1" (nextRound v "dog" Ex.now Ex.scored)
     = Some (Some "u_carol")
  /\ Player.userId <$> spec_successor (joinOrder "room_1" Ex.scored) "u_alice"
     = Some "u_bob".
Proof. vm_compute. repeat split; congruence. Qed.

(** C2 (amended).  For a room in state playing whose loaded roster (ordered
    by descending score) lists each user once and holds the current drawer at
    index [i], [nextRound] below the last round stores as drawer the player at
    index [(i + 1) mod n] of that roster; while the roster stays as loaded the
    drawers of the next [n] rounds are the roster rotated past the current
    drawer, a permutation of it without repeats. *)
Theorem nextRound_round_robin v r u i d randomWord now db :
  room v = Some r ->
  user v = Some u ->
  Room.gameState r = playing ->
  roomById (Room.id r) db = Some r ->
  NoDup (Player.userId <$> players v) ->
  players v !! i = Some d ->
  Room.currentDrawerId r = Some (Player.userId d) ->
  Room.currentRound r + 1 <= Room.maxRounds r ->
  let n := length (players v) in
  let cycle := drawerSequence (players v) (Some (Player.userId d)) n in
  Room.currentDrawerId <$> roomById (Room.id r) (nextRound v randomWord now db)
  = Some (Player.userId <$> players v !! ((i + 1) `mod` n)%nat)
  /\ cycle = rotate (S i) (players v)
  /\ cycle ≡ₚ players v
  /\ NoDup (Player.userId <$> cycle).
Proof.
  intros Hroom Huser Hstate Hsync Hnd Hi Hdrawer Hround n cycle.
  assert (players v <> []) as Hne by (intros E; rewrite E in Hi; discriminate).
  assert (cycle = rotate (S i) (players v)) as Hcycle
    by (now apply drawerSequence_rotate).
  split; [|split; [exact Hcycle|split]].
  - destruct (nextRound_advanced v r u randomWord now db
                Hroom Huser Hne Hsync Hround) as (d' & Hd' & Hr').
    rewrite Hr'. simpl. f_equal.
    rewrite Hdrawer, (nextDrawer_lookup _ _ _ Hnd Hi) in Hd'.
    fold n in Hd'. rewrite Hd'. reflexivity.
  - rewrite Hcycle. apply rotate_Permutation.
  - rewrite Hcycle. eapply NoDup_Permutation_proper; [|exact Hnd].
    apply fmap_Permutation, rotate_Permutation.
Qed.

Lemma nextRound_round_robin_witness :
  let v := loadGameRoom "ABC123" (Ex.blank Ex.alice) Ex.scored in
  let cycle := drawerSequence (players v) (Some "u_alice") 3 in
  Room.currentDrawerId <$> roomById "room_1" (nextRound v "dog" Ex.now Ex.scored)
  = Some (Player.userId <$> players v !! 0%nat)
  /\ cycle = rotate 3 (players v)
  /\ cycle ≡ₚ players v
  /\ NoDup (Player.userId <$> cycle).
Proof.
  intros v cycle.
  apply (nextRound_round_robin v
           (Ex.roomRow playing 1 (Some "u_alice") (Some "cat")) Ex.alice
           2%nat (Ex.playerRow Ex.alice 0) "dog" Ex.now Ex.scored);
    try reflexivity; try (simpl; lia).
  apply (bool_decide_unpack _). vm_compute. exact I.
Defined.

(** ** Starting a game *)

(** C3 (as stated, refuted).  [startGame] does not look at the room state and
    raises no error: invoked by the host on the finished room it succeeds and
    rewrites the room to playing, round 1; its first drawer is the head of the
    roster ordered by score (carol), not the earliest-joined player (alice);
    and in the lobby, with three players joined, a caller who is not the host
    is turned away silently. *)
Lemma startGame_ignores_room_state :
  let v := loadGameRoom "ABC123" (Ex.blank Ex.alice) Ex.over in
  let db' := startGame v "dog" Ex.now Ex.over in
  Room.gameState <$> roomById "room_1" Ex.over = Some finished
  /\ Room.gameState <$> roomById "room_1" db' = Some playing
  /\ Room.currentRound <$> roomById "room_1" db' = Some 1
  /\ Player.userId <$> joinOrder "room_1" Ex.over !! 0%nat = Some "u_alice"
  /\ Room.currentDrawerId <$> roomById "room_1" db' = Some (Some "u_carol")
  /\ startGame (loadGameRoom "ABC123" (Ex.blank Ex.bob) Ex.lobby) "dog" Ex.now Ex.lobby
     = Ex.lobby.
Proof. vm_compute. repeat split; congruence. Qed.

Lemma startControl_true v :
  startControl v = true ->
  exists r u,
    room v = Some r /\ user v = Some u
    /\ Room.gameState r = waiting
    /\ Room.hostUserId r = User.id u
    /\ (2 <= length (players v))%nat.
Proof.
  unfold startControl. destruct (room v) as [r|]; [|discriminate].
  destruct (user v) as [u|]; [|discriminate].
  rewrite !andb_true_iff, !bool_decide_eq_true, negb_true_iff.
  intros [[[Hw _] Hh] Hn]. exists r, u. repeat split; try assumption. lia.
Qed.

(** C3 (amended).  [startGame] goes ahead only for the host of the room and
    with at least 2 players loaded; it then sets state = playing, round = 1,
    round start = now, the given word, and as first drawer the first player
    of the loaded roster.  Otherwise it returns without an error and leaves
    the store unchanged.  The waiting state is required by the start control
    that invokes it: a click changes the store only if the view's room is
    waiting. *)
Theorem startGame_guarded v r u randomWord now db :
  room v = Some r ->
  user v = Some u ->
  roomById (Room.id r) db = Some r ->
  (Room.hostUserId r <> User.id u \/ (length (players v) < 2)%nat ->
   startGame v randomWord now db = db)
  /\ (Room.hostUserId r = User.id u -> (2 <= length (players v))%nat ->
      exists firstDrawer r',
        players v !! 0%nat = Some firstDrawer
        /\ roomById (Room.id r) (startGame v randomWord now db) = Some r'
        /\ Room.gameState r' = playing
        /\ Room.currentRound r' = 1
        /\ Room.roundStartTime r' = Some now
        /\ Room.currentDrawerId r' = Some (Player.userId firstDrawer)
        /\ Room.currentWord r' = Some randomWord)
  /\ (clickStart v randomWord now db <> db -> Room.gameState r = waiting).
Proof.
  intros Hroom Huser Hsync. split; [|split].
  - intros Hguard. unfold startGame. rewrite Hroom, Huser.
    destruct Hguard as [Hhost|Hlen].
    + rewrite bool_decide_eq_false_2 by assumption. reflexivity.
    + assert ((Z.of_nat (length (players v)) <? 2) = true) as -> by lia.
      now rewrite orb_true_r.
  - intros Hhost Hlen. unfold startGame. rewrite Hroom, Huser.
    rewrite bool_decide_eq_true_2 by assumption.
    assert ((Z.of_nat (length (players v)) <? 2) = false) as -> by lia.
    simpl.
    destruct (players v) as [|firstDrawer l] eqn:Hp; [simpl in Hlen; lia|].
    simpl. exists firstDrawer. eexists.
    split; [reflexivity|].
    split.
    { rewrite createStats_roomById. now apply roomById_update_same. }
    simpl. repeat split.
  - unfold clickStart. destruct (startControl v) eqn:Hc; [|congruence].
    intros _. apply startControl_true in Hc as (r0 & _ & Hr0 & _ & Hw & _).
    congruence.
Qed.

Lemma startGame_guarded_witness :
  let v := loadGameRoom "ABC123" (Ex.blank Ex.alice) Ex.lobby in
  exists firstDrawer r',
    players v !! 0%nat = Some firstDrawer
    /\ roomById "room_1" (startGame v "dog" Ex.now Ex.lobby) = Some r'
    /\ Room.gameState r' = playing
    /\ Room.currentRound r' = 1
    /\ Room.roundStartTime r' = Some Ex.now
    /\ Room.currentDrawerId r' = Some (Player.userId firstDrawer)
    /\ Room.currentWord r' = Some "dog".
Proof.
  intros v.
  destruct (startGame_guarded v (Ex.roomRow waiting 0 None None) Ex.alice
              "dog" Ex.now Ex.lobby) as (_ & Hstart & _); try reflexivity.
  apply Hstart; [reflexivity|]. simpl. lia.
Defined.

(** ** The life cycle of a room *)













(** ** Awarding points *)

(** C1 (as stated, refuted).  bob guesses the word of round 1 twice; the view
    is reloaded in between.  After the first award bob is in the round's
    correct-guesser set with 150 points; the second award leaves the set as
    it is and raises his score to 300. *)
Lemma awardPoints_adds_twice :
  let v0 := loadGameRoom "ABC123" (Ex.blank Ex.bob) Ex.round1 in
  let db1 := awardPoints v0 "u_bob" 150 Ex.round1 in
  let v1 := loadGameRoom "ABC123" v0 db1 in
  let db2 := awardPoints v1 "u_bob" 150 db1 in
  Stats.correctGuessers <$> currentStats "room_1" 1 db1 = Some ["u_bob"]
  /\ scoreOf "u_bob" db1 = Some 150
  /\ Stats.correctGuessers <$> currentStats "room_1" 1 db2 = Some ["u_bob"]
  /\ scoreOf "u_bob" db2 = Some 300.
Proof. vm_compute. repeat split; reflexivity. Qed.

Lemma playerById_update i j patch db :
  (forall x, Player.id (patch x) = Player.id x) ->
  playerById j (with_roomPlayers (updateById Player.id i patch) db)
  = (fun p => if decide (Player.id p = i) then patch p else p) <$> playerById j db.
Proof.
  intros Hid. unfold playerById. simpl. apply findFirst_updateById.
  intros p. now rewrite Hid.
Qed.

(** The score [awardPoints] writes: the row with the id of the roster's row
    gets the roster's score plus the points, whatever score it held. *)
Lemma awardPoints_score player stored points db :
  playerById (Player.id player) db = Some stored ->
  playerById (Player.id player)
    (with_roomPlayers
       (updateById Player.id (Player.id player)
          (scorePatch (Player.score player + points))) db)
  = Some (scorePatch (Player.score player + points) stored).
Proof.
  intros Hstored. rewrite playerById_update, Hstored by reflexivity. simpl.
  apply findFirst_Some_pred, bool_decide_eq_true in Hstored.
  case_decide; [reflexivity|contradiction].
Qed.

(** C1 (amended).  When the player's id is already in the round's
    correct-guesser set, a further [awardPoints] for that player and round
    leaves the round's stats, and so the set, unchanged; the score is not
    guarded by that check: every invocation stores the score of the local
    roster plus the points in the player's row, whatever score the row held
    (so after a reload of the roster the points are added again). *)
Theorem awardPoints_guards_the_set v r player stored stats playerId points db :
  room v = Some r ->
  findFirst (fun p => bool_decide (Player.userId p = playerId)) (players v) = Some player ->
  playerById (Player.id player) db = Some stored ->
  currentStats (Room.id r) (Room.currentRound r) db = Some stats ->
  playerId ∈ Stats.correctGuessers stats ->
  let db' := awardPoints v playerId points db in
  gameStats db' = gameStats db
  /\ currentStats (Room.id r) (Room.currentRound r) db' = Some stats
  /\ playerById (Player.id player) db'
     = Some (scorePatch (Player.score player + points) stored)
  /\ Player.score <$> playerById (Player.id player) db'
     = Some (Player.score player + points).
Proof.
  intros Hroom Hview Hstored Hstats Hin db'. subst db'.
  unfold awardPoints. rewrite Hview, Hroom.
  set (db1 := with_roomPlayers _ db).
  assert (currentStats (Room.id r) (Room.currentRound r) db1 = Some stats) as Hstats1
    by exact Hstats.
  rewrite Hstats1. rewrite bool_decide_eq_true_2 by assumption.
  split; [reflexivity|]. split; [exact Hstats1|].
  unfold db1. rewrite (awardPoints_score _ _ _ _ Hstored). split; reflexivity.
Qed.

(** bob's client still holds the roster of the start of the round (score 0)
    while the store has his 150 points and his id in the set: the award
    writes 0 + 150. *)
Lemma awardPoints_guards_the_set_witness :
  let v := loadGameRoom "ABC123" (Ex.blank Ex.bob) Ex.round1 in
  let db' := awardPoints v "u_bob" 150 Ex.scored in
  gameStats db' = gameStats Ex.scored
  /\ currentStats "room_1" 1 db' = Some (Ex.statsRow 1 ["u_bob"; "u_carol"])
  /\ playerById "player_u_bob_room_1" db'
     = Some (scorePatch (0 + 150) (Ex.playerRow Ex.bob 150))
  /\ Player.score <$> playerById "player_u_bob_room_1" db' = Some (0 + 150).
Proof.
  intros v db'.
  apply (awardPoints_guards_the_set v
           (Ex.roomRow playing 1 (Some "u_alice") (Some "cat"))
           (Ex.playerRow Ex.bob 0) (Ex.playerRow Ex.bob 150)
           (Ex.statsRow 1 ["u_bob"; "u_carol"])
           "u_bob" 150 Ex.scored); try reflexivity.
  apply (bool_decide_unpack _). vm_compute. exact I.
Defined.

(** ** Drawing *)

(** C9 (as stated, refuted).  A viewer's attempt is not rejected as
    Unauthorized: with [canDraw] false the handlers return like any other
    call, [startDrawing] and [draw] with the state they were given and
    [stopDrawing] with the pen reset and the store as it was, where the
    specification's operation yields the error. *)
Lemma viewer_attempt_returns_silently :
  let p := {| px := 10; py := 10 |} in
  let covers := fun (_ : list Point) (_ _ _ : Z) => true in
  let attempt := stopDrawing Ex.viewerProps "stroke_9" Ex.mounted Ex.round1 in
  propCanDraw Ex.viewerProps = false
  /\ startDrawing Ex.viewerProps p Ex.mounted = Ex.mounted
  /\ draw covers Ex.viewerProps p Ex.mounted = Ex.mounted
  /\ attempt = (Ex.mounted, Ex.round1)
  /\ spec_append (propCanDraw Ex.viewerProps) attempt = inl Unauthorized
  /\ spec_append (propCanDraw Ex.viewerProps) attempt <> inr attempt.
Proof. vm_compute. repeat split; discriminate. Qed.



(** ** Redrawing the canvas *)

Section Replay.

Variable covers : list Point -> Z -> Z -> Z -> bool.

Lemma lineTo_fold l c0 :
  let c' := foldl (fun c p => lineTo p c) c0 l in
  globalCompositeOperation c' = globalCompositeOperation c0
  /\ strokeStyle c' = strokeStyle c0
  /\ lineWidth c' = lineWidth c0
  /\ path c' = path c0 ++ l
  /\ pixels c' = pixels c0.
Proof.
  revert c0. induction l as [|p l IH]; intros c0; simpl.
  - rewrite app_nil_r. auto.
  - destruct (IH (lineTo p c0)) as (-> & -> & -> & -> & ->).
    simpl. rewrite <- app_assoc. auto.
Qed.

(** The effect of a stroke with at least two points: the composite operation
    follows the eraser flag, and the covered pixels get the colour or are
    removed. *)
Lemma drawStroke_drawn c strokeData p0 p1 rest :
  points strokeData = p0 :: p1 :: rest ->
  let op := if isEraser strokeData then destination_out else source_over in
  globalCompositeOperation (drawStroke covers c strokeData) = op
  /\ forall x y,
       pixels (drawStroke covers c strokeData) x y
       = if inCanvas x y && covers (p0 :: p1 :: rest) (size strokeData) x y
         then composite op (color strokeData) (pixels c x y)
         else pixels c x y.
Proof.
  intros Hpts. unfold drawStroke. rewrite Hpts. cbv zeta.
  destruct (lineTo_fold (p1 :: rest)
              (moveTo p0 (set_pen (color strokeData) (size strokeData)
                                  (isEraser strokeData) (beginPath c))))
    as (Hg & Hs & Hw & Hp & Hx).
  remember (foldl (fun c p => lineTo p c) _ (p1 :: rest)) as c' eqn:Hc'.
  unfold stroke. simpl. rewrite Hg, Hs, Hw, Hp, Hx. simpl. split; reflexivity.
Qed.

Lemma drawStroke_skipped c strokeData :
  (length (points strokeData) < 2)%nat -> drawStroke covers c strokeData = c.
Proof.
  unfold drawStroke. destruct (points strokeData) as [|p0 [|p1 rest]]; simpl;
    intros; try reflexivity; lia.
Qed.

Lemma drawStroke_sameCanvas c1 c2 strokeData :
  sameCanvas c1 c2 ->
  sameCanvas (drawStroke covers c1 strokeData) (drawStroke covers c2 strokeData).
Proof.
  intros [Hop Hpx].
  destruct (points strokeData) as [|p0 [|p1 rest]] eqn:Hpts.
  1,2: rewrite !drawStroke_skipped by (rewrite Hpts; simpl; lia); split; assumption.
  destruct (drawStroke_drawn c1 _ _ _ _ Hpts) as [Hg1 Hx1].
  destruct (drawStroke_drawn c2 _ _ _ _ Hpts) as [Hg2 Hx2].
  split; [congruence|].
  intros x y Hin. rewrite Hx1, Hx2, Hin. simpl.
  destruct (covers _ _ x y); [reflexivity|]. now apply Hpx.
Qed.

(** Started in source-over mode, a redraw shows the white background under
    the replayed strokes, whatever the canvas showed before. *)
Lemma redrawCanvas_source_over c1 c2 log :
  globalCompositeOperation c1 = source_over ->
  globalCompositeOperation c2 = source_over ->
  sameCanvas (redrawCanvas covers c1 log) (redrawCanvas covers c2 log).
Proof.
  intros H1 H2. unfold redrawCanvas.
  set (b1 := fillRect (set_fillStyle "#ffffff" (clearRect c1))).
  set (b2 := fillRect (set_fillStyle "#ffffff" (clearRect c2))).
  assert (sameCanvas b1 b2) as Hb.
  { unfold sameCanvas, b1, b2. simpl. rewrite H1, H2.
    split; [reflexivity|]. intros x y ->. reflexivity. }
  clearbody b1 b2. revert b1 b2 Hb.
  induction log as [|s log IH]; intros b1 b2 Hb; simpl; [exact Hb|].
  apply IH. destruct (Stroke.strokeData s); [|exact Hb].
  now apply drawStroke_sameCanvas.
Qed.

(** C8, at the failing input.  The drawer draws one eraser stroke and
    undoes it, so the stroke log of the round is empty again.  A viewer
    connected all along has replayed the eraser stroke, which left its
    context in destination-out mode: its next redraw paints the white
    background through that mode and the canvas stays transparent.  A
    viewer who joins now redraws the same empty log onto a white canvas. *)
Theorem redrawCanvas_keeps_eraser_mode :
  let db1 := Ex.drawn [Ex.eraserStroke] in
  let connected1 := loadStrokes covers Ex.viewerProps Ex.mounted db1 in
  let drawer1 := loadStrokes covers Ex.drawerProps Ex.mounted db1 in
  let db2 := undoLastStroke Ex.drawerProps drawer1 db1 in
  let connected2 := loadStrokes covers Ex.viewerProps connected1 db2 in
  let lateJoiner := loadStrokes covers Ex.viewerProps Ex.mounted db2 in
  drawingStrokes db2 = []
  /\ strokes connected2 = strokes lateJoiner
  /\ globalCompositeOperation (ctx connected1) = destination_out
  /\ pixels (ctx connected2) 0 0 = None
  /\ pixels (ctx lateJoiner) 0 0 = Some "#ffffff".
Proof. vm_compute. repeat split; reflexivity. Qed.

End Replay.

(** * Further properties of the code *)

(** ** The countdown *)

Lemma ticks_stopped n a :
  ticks n {| Timer.timeLeft := a; Timer.ticking := false |}
  = {| Timer.timeLeft := a; Timer.ticking := false |}.
Proof. induction n as [|n IH]; [reflexivity|exact IH]. Qed.

Lemma ticks_running n a :
  ticks (S n) {| Timer.timeLeft := a; Timer.ticking := true |}
  = {| Timer.timeLeft := Z.max 0 (a - Z.of_nat (S n));
       Timer.ticking := bool_decide (Z.of_nat (S n) < a) |}.
Proof.
  revert a. induction n as [|n IH]; intros a.
  - cbn [ticks]. unfold tick. cbn [Timer.ticking Timer.timeLeft].
    destruct (a <=? 1) eqn:E.
    + rewrite bool_decide_eq_false_2 by lia. f_equal. lia.
    + rewrite bool_decide_eq_true_2 by lia. f_equal. lia.
  - change (ticks (S (S n)) ?t) with (ticks (S n) (tick t)).
    unfold tick. cbn [Timer.ticking Timer.timeLeft].
    destruct (a <=? 1) eqn:E.
    + rewrite ticks_stopped, bool_decide_eq_false_2 by lia. f_equal. lia.
    + rewrite IH. f_equal; [lia|]. apply bool_decide_ext. lia.
Qed.

Lemma ticks_startTimer duration n :
  ticks n (startTimer duration)
  = if decide (n = 0%nat) then startTimer duration
    else {| Timer.timeLeft := Z.max 0 (duration - Z.of_nat n);
            Timer.ticking := bool_decide (Z.of_nat n < duration) |}.
Proof.
  destruct n as [|n]; [reflexivity|].
  rewrite decide_False by discriminate. apply ticks_running.
Qed.

(** X1.  The countdown never goes below zero: [n >= 1] seconds after
    [startTimer(duration)] the time left is [max(0, duration - n)], for any
    duration, and the interval is still installed exactly while
    [n < duration]. *)
Theorem countdown_stops_at_zero duration n :
  ticks n (startTimer duration)
  = if decide (n = 0%nat) then startTimer duration
    else {| Timer.timeLeft := Z.max 0 (duration - Z.of_nat n);
            Timer.ticking := bool_decide (Z.of_nat n < duration) |}.
Proof. apply ticks_startTimer. Qed.

(** X2.  A client that loads a playing room [elapsed] whole seconds after the
    round start gets the very timer a client that started its countdown at
    the round start shows by then, as long as time is left; once the round
    time has elapsed the load leaves the timer as it was. *)
Theorem reloadTimer_matches_countdown getTime dateNow gameRoom iso start t :
  Room.gameState gameRoom = playing ->
  Room.roundStartTime gameRoom = Some iso ->
  iso <> "" ->
  getTime iso = Some start ->
  start <= dateNow ->
  let elapsed := Z.to_nat ((dateNow - start) / 1000) in
  reloadTimer getTime dateNow gameRoom t
  = if decide (Z.of_nat elapsed < Room.roundTime gameRoom)
    then ticks elapsed (startTimer (Room.roundTime gameRoom))
    else t.
Proof.
  intros Hstate Hstart Hiso Htime Hle elapsed.
  assert (0 <= (dateNow - start) / 1000) as Hpos by (apply Z.div_pos; lia).
  assert (Z.of_nat elapsed = (dateNow - start) / 1000) as He
    by (unfold elapsed; lia).
  unfold reloadTimer. rewrite Hstart, Htime.
  rewrite bool_decide_eq_true_2, bool_decide_eq_false_2 by assumption.
  cbn [andb negb]. cbv zeta. rewrite <- He.
  case_decide as Hlt.
  - assert ((0 <? Z.max 0 (Room.roundTime gameRoom - Z.of_nat elapsed)) = true)
      as -> by lia.
    rewrite ticks_startTimer. case_decide as H0.
    + rewrite H0. simpl. now rewrite Z.sub_0_r, Z.max_r by lia.
    + unfold startTimer. rewrite bool_decide_eq_true_2 by assumption.
      reflexivity.
  - assert ((0 <? Z.max 0 (Room.roundTime gameRoom - Z.of_nat elapsed)) = false)
      as -> by lia.
    reflexivity.
Qed.

Lemma reloadTimer_matches_countdown_witness :
  reloadTimer (fun _ => Some 1735732800000) 1735732825400
    (Ex.roomRow playing 1 (Some "u_alice") (Some "cat")) initialTimer
  = if decide (Z.of_nat (Z.to_nat ((1735732825400 - 1735732800000) / 1000)) < 60)
    then ticks (Z.to_nat ((1735732825400 - 1735732800000) / 1000)) (startTimer 60)
    else initialTimer.
Proof.
  apply (reloadTimer_matches_countdown (fun _ => Some 1735732800000) 1735732825400
           (Ex.roomRow playing 1 (Some "u_alice") (Some "cat"))
           "2025-01-01T12:00:00.000Z" 1735732800000 initialTimer);
    try reflexivity; [discriminate | lia].
Defined.

Example reloadTimer_mid_round :
  reloadTimer (fun _ => Some 1735732800000) 1735732825400
    (Ex.roomRow playing 1 (Some "u_alice") (Some "cat")) initialTimer
  = startTimer 35.
Proof. reflexivity. Qed.

(** ** Word selection *)

Lemma pick_Some {A} (random : Q) (l : list A) :
  (0 <= random)%Q -> (random < 1)%Q -> l <> [] ->
  exists x, pick random l = Some x /\ x ∈ l.
Proof.
  intros H0 H1 Hl. unfold pick. cbv zeta.
  set (n := Z.of_nat (length l)).
  assert (0 < n) as Hn by (destruct l; [contradiction|unfold n; simpl; lia]).
  set (i := Qfloor (random * inject_Z n)).
  assert (0 <= i) as Hi0.
  { change 0 with (Qfloor 0). apply Qfloor_resp_le.
    apply Qmult_le_0_compat; [assumption|].
    change 0%Q with (inject_Z 0). rewrite <- Zle_Qle. lia. }
  assert (i < n) as Hin.
  { rewrite Zlt_Qlt. eapply Qle_lt_trans; [apply Qfloor_le|].
    rewrite <- (Qmult_1_l (inject_Z n)) at 2.
    apply Qmult_lt_compat_r; [|assumption].
    change 0%Q with (inject_Z 0). rewrite <- Zlt_Qlt. lia. }
  assert ((i <? 0) = false) as -> by lia.
  destruct (lookup_lt_is_Some_2 l (Z.to_nat i)) as [x Hx]; [unfold n in Hin; lia|].
  exists x. split; [exact Hx|]. apply list_elem_of_lookup. eauto.
Qed.

Lemma splitOn_nonempty f s : splitOn f s <> [].
Proof.
  destruct s as [|c s]; simpl; [discriminate|].
  destruct (f c); [discriminate|]. destruct (splitOn f s); discriminate.
Qed.

Lemma getRandomWord_custom_path opts wordCategories random1 random2 cw :
  customWords opts = Some cw ->
  cw <> "" ->
  (0 <= random1)%Q -> (random1 < 1)%Q ->
  exists w,
    getRandomWord opts wordCategories random1 random2 = Some w
    /\ w ∈ splitOn isComma cw.
Proof.
  intros Hcw Hne H0 H1. unfold getRandomWord. rewrite Hcw.
  rewrite bool_decide_eq_false_2 by assumption. cbn [negb]. cbv zeta.
  apply pick_Some; try assumption. apply splitOn_nonempty.
Qed.

(** X3.  With custom words set, [getRandomWord] returns one of the
    comma-separated entries of the list, never [undefined], whatever the word
    categories hold. *)
Theorem getRandomWord_custom opts wordCategories random1 random2 cw :
  customWords opts = Some cw ->
  cw <> "" ->
  (0 <= random1)%Q -> (random1 < 1)%Q ->
  exists w,
    getRandomWord opts wordCategories random1 random2 = Some w
    /\ w ∈ splitOn isComma cw.
Proof.
  now apply getRandomWord_custom_path.
Qed.

Lemma getRandomWord_custom_witness :
  exists w,
    getRandomWord {| customWords := Some "sun,moon,star"; roomDifficulty := None |}
      None (1 # 2) 0 = Some w
    /\ w ∈ splitOn isComma "sun,moon,star".
Proof.
  apply (getRandomWord_custom _ None (1 # 2) 0 "sun,moon,star");
    [reflexivity | discriminate | discriminate | reflexivity].
Defined.

Example getRandomWord_middle :
  getRandomWord {| customWords := Some "sun,moon,star"; roomDifficulty := None |}
    None (1 # 2) 0 = Some "moon".
Proof. reflexivity. Qed.

(** X4.  Without custom words [getRandomWord] always returns a word: the
    fallback ["cat"] when the categories cannot be listed or none has the
    room's difficulty (["medium"] when the room names none), and otherwise an
    entry of a category of that difficulty. *)
Theorem getRandomWord_category opts wordCategories random1 random2 :
  orElse (customWords opts) "" = "" ->
  (0 <= random1)%Q -> (random1 < 1)%Q ->
  (0 <= random2)%Q -> (random2 < 1)%Q ->
  let wanted := orElse (roomDifficulty opts) "medium" in
  let matching := filter (fun c => difficulty c = wanted) (default [] wordCategories) in
  exists w,
    getRandomWord opts wordCategories random1 random2 = Some w
    /\ if decide (matching = []) then w = "cat"
       else exists c, c ∈ matching /\ difficulty c = wanted
                      /\ w ∈ splitOn isComma (words c).
Proof.
  intros Hcustom H0 H1 H2 H3 wanted matching.
  assert (getRandomWord opts wordCategories random1 random2
          = categoryWord opts wordCategories random1 random2) as ->.
  { unfold getRandomWord, orElse in *. destruct (customWords opts) as [cw|]; [|reflexivity].
    case_bool_decide; [reflexivity|contradiction]. }
  unfold categoryWord. destruct wordCategories as [table|]; simpl in matching.
  - fold wanted. fold matching. cbv zeta.
    case_decide as Hm.
    + rewrite Hm. eauto.
    + destruct (pick_Some random1 matching H0 H1 Hm) as (c & Hc & Hin).
      destruct matching as [|c0 rest] eqn:E; [contradiction|].
      rewrite Hc.
      destruct (pick_Some random2 (splitOn isComma (words c)) H2 H3
                  (splitOn_nonempty _ _)) as (w & Hw & Hwin).
      exists w. split; [exact Hw|]. exists c. split; [exact Hin|]. split; [|exact Hwin].
      rewrite <- E in Hin. unfold matching in Hin.
      apply list_elem_of_filter in Hin as [Hd _]. exact Hd.
  - exists "cat". split; reflexivity.
Qed.

Lemma getRandomWord_category_witness :
  let table := [ {| difficulty := "easy"; words := "cat,dog" |};
                 {| difficulty := "medium"; words := "guitar,sushi,elephant" |} ] in
  let matching := filter (fun c => difficulty c = "medium") table in
  exists w,
    getRandomWord {| customWords := None; roomDifficulty := None |}
      (Some table) (1 # 3) (3 # 4) = Some w
    /\ if decide (matching = []) then w = "cat"
       else exists c, c ∈ matching /\ difficulty c = "medium"
                      /\ w ∈ splitOn isComma (words c).
Proof.
  intros table matching.
  apply (getRandomWord_category {| customWords := None; roomDifficulty := None |}
           (Some table) (1 # 3) (3 # 4)); try reflexivity; discriminate.
Defined.

(** ** Custom word lists *)

















Lemma joinWith_not_empty sep w ws : w <> "" -> joinWith sep (w :: ws) <> "".
Proof.
  intros Hw. destruct ws; simpl; [exact Hw|].
  destruct w; [contradiction|discriminate].
Qed.




Example createRoom_too_few_words :
  createRoom (Some Ex.alice) "medium" "sun, moon,, ,star" false "ABC123" Ex.now
             {| homeRooms := []; homePlayers := [] |}
  = ({| homeRooms := []; homePlayers := [] |}, TooFewWords).
Proof. reflexivity. Qed.

Example processWords_example :
  processWords "Sun, Moon,star , Tree,River" = ["sun"; "moon"; "star"; "tree"; "river"].
Proof. reflexivity. Qed.

(** ** Joining a room *)

Lemma insertByScoreDesc_perm p l : insertByScoreDesc p l ≡ₚ p :: l.
Proof.
  induction l as [|q l IH]; simpl; [reflexivity|].
  destruct (Player.score q <=? Player.score p); [reflexivity|].
  rewrite IH. apply Permutation_swap.
Qed.

Lemma orderByScoreDesc_perm l : orderByScoreDesc l ≡ₚ l.
Proof.
  unfold orderByScoreDesc. induction l as [|p l IH]; simpl; [reflexivity|].
  now rewrite insertByScoreDesc_perm, IH.
Qed.

Lemma findFirst_is_Some {A} (p : A -> bool) (rows : list A) x :
  x ∈ rows -> p x = true -> is_Some (findFirst p rows).
Proof.
  induction 1 as [x rows|x y rows _ IH]; intros Hp; rewrite findFirst_cons.
  - rewrite Hp. eauto.
  - destruct (p y); eauto.
Qed.


Lemma joinRoom_appends v r u db :
  room v = Some r ->
  user v = Some u ->
  hasId Player.id ("player_" +:+ User.id u +:+ "_" +:+ Room.id r) (roomPlayers db) = false ->
  exists row,
    joinRoom v db = with_roomPlayers (fun _ => roomPlayers db ++ [row]) db
    /\ Player.userId row = User.id u
    /\ Player.roomId row = Room.id r
    /\ Player.score row = 0.
Proof.
  intros Hr Hu Hfresh. unfold joinRoom, createRow. rewrite Hr, Hu.
  cbn [Player.id]. rewrite Hfresh. eexists. split; [reflexivity|].
  repeat split.
Qed.

(** X6.  After [joinRoom] by a signed-in visitor whose row id is still free,
    a reload shows the roster it showed before plus one new row for the
    visitor with score 0; the visitor is now the current player, so the join
    control is no longer offered. *)
Theorem joinRoom_then_reload v r u roomCode db :
  room v = Some r ->
  user v = Some u ->
  findFirst (fun x => bool_decide (Room.roomCode x = roomCode)) (gameRooms db) = Some r ->
  hasId Player.id ("player_" +:+ User.id u +:+ "_" +:+ Room.id r) (roomPlayers db) = false ->
  let v' := loadGameRoom roomCode v (joinRoom v db) in
  exists row,
    roomPlayers (joinRoom v db) = roomPlayers db ++ [row]
    /\ Player.userId row = User.id u
    /\ Player.score row = 0
    /\ players v' ≡ₚ row :: players (loadGameRoom roomCode v db)
    /\ is_Some (currentPlayer v')
    /\ joinControl v' = false.
Proof.
  intros Hr Hu Hroom Hfresh v'.
  destruct (joinRoom_appends v r u db Hr Hu Hfresh) as (row & Hjoin & Huid & Hrid & Hsc).
  assert (players v' ≡ₚ row :: players (loadGameRoom roomCode v db)
          /\ user v' = Some u /\ room v' = Some r) as (Hperm & Hu' & Hr').
  { subst v'. rewrite Hjoin. unfold loadGameRoom. cbn [gameRooms with_roomPlayers roomPlayers].
    rewrite Hroom. cbn [players user room]. split; [|split; [exact Hu|reflexivity]].
    rewrite !orderByScoreDesc_perm, filter_app, filter_cons_True by exact Hrid.
    rewrite filter_nil. symmetry. apply Permutation_cons_append. }
  assert (is_Some (currentPlayer v')) as Hcur.
  { unfold currentPlayer. rewrite Hu'.
    apply (findFirst_is_Some _ _ row).
    - rewrite Hperm. left.
    - now apply bool_decide_eq_true. }
  exists row. rewrite Hjoin. cbn [roomPlayers with_roomPlayers].
  repeat split; try assumption.
  unfold joinControl. rewrite Hr'.
  destruct Hcur as [p Hp]. rewrite Hp.
  rewrite (bool_decide_eq_false_2 (Some p = None)) by discriminate.
  apply andb_false_r.
Qed.

Lemma joinRoom_then_reload_witness :
  let v := loadGameRoom "ABC123"
             (Ex.blank {| User.id := "u_dave"; User.email := None |}) Ex.lobby in
  let v' := loadGameRoom "ABC123" v (joinRoom v Ex.lobby) in
  exists row,
    roomPlayers (joinRoom v Ex.lobby) = roomPlayers Ex.lobby ++ [row]
    /\ Player.userId row = "u_dave"
    /\ Player.score row = 0
    /\ players v' ≡ₚ row :: players (loadGameRoom "ABC123" v Ex.lobby)
    /\ is_Some (currentPlayer v')
    /\ joinControl v' = false.
Proof.
  intros v v'.
  apply (joinRoom_then_reload v (Ex.roomRow waiting 0 None None)
           {| User.id := "u_dave"; User.email := None |} "ABC123" Ex.lobby);
    reflexivity.
Defined.

(** X7.  Joining twice is joining once: the row id is fixed by user and
    room, and the store refuses a second row with that id. *)
Theorem joinRoom_idempotent v db : joinRoom v (joinRoom v db) = joinRoom v db.
Proof.
  unfold joinRoom. destruct (user v) as [u|]; [|reflexivity].
  destruct (room v) as [r|]; [|reflexivity].
  unfold createRow at 2.
  destruct (hasId Player.id _ (roomPlayers db)) eqn:Hhas.
  - unfold createRow. rewrite Hhas. reflexivity.
  - cbn [roomPlayers with_roomPlayers]. unfold createRow.
    match goal with |- context [hasId Player.id ?i (?l ++ [?row])] =>
      assert (hasId Player.id i (l ++ [row]) = true) as ->
    end; [|reflexivity].
    apply bool_decide_eq_true. rewrite fmap_app. apply elem_of_app. right.
    cbn. left.
Qed.

(** ** More on awarding points *)

Lemma NoDup_fmap_elem {A B} (f : A -> B) (l : list A) x y :
  NoDup (f <$> l) -> x ∈ l -> y ∈ l -> f x = f y -> x = y.
Proof.
  intros Hnd [i Hi]%list_elem_of_lookup [j Hj]%list_elem_of_lookup Heq.
  assert (i = j) as ->; [|congruence].
  apply (NoDup_lookup _ i j (f x) Hnd); rewrite list_lookup_fmap.
  - now rewrite Hi.
  - rewrite Hj. simpl. now rewrite Heq.
Qed.

(** X8.  [awardPoints] keeps every round's correct-guesser list free of
    repeats and never touches a room row; for a player id that the local
    roster does not hold it does nothing at all. *)
Theorem awardPoints_keeps_guessers_distinct v playerId points db :
  Forall (fun s => NoDup (Stats.correctGuessers s)) (gameStats db) ->
  let db' := awardPoints v playerId points db in
  Forall (fun s => NoDup (Stats.correctGuessers s)) (gameStats db')
  /\ gameRooms db' = gameRooms db
  /\ (findFirst (fun p => bool_decide (Player.userId p = playerId)) (players v) = None ->
      db' = db).
Proof.
  intros Hnd db'. subst db'. unfold awardPoints.
  destruct (findFirst _ (players v)) as [player|]; [|auto].
  destruct (room v) as [r|]; [|split; [exact Hnd|split; [reflexivity|discriminate]]].
  set (db1 := with_roomPlayers _ db).
  destruct (currentStats (Room.id r) (Room.currentRound r) db1) as [stats|] eqn:Hs;
    [|split; [exact Hnd|split; [reflexivity|discriminate]]].
  case_bool_decide as Hin; [split; [exact Hnd|split; [reflexivity|discriminate]]|].
  split; [|split; [reflexivity|discriminate]].
  cbn [gameStats with_gameStats]. unfold updateById.
  apply Forall_fmap, Forall_forall. intros s Hsin. unfold compose.
  case_decide.
  - cbn [Stats.correctGuessers guessersPatch].
    apply NoDup_app. split; [|split].
    + apply findFirst_Some_elem in Hs. rewrite Forall_forall in Hnd. now apply Hnd.
    + intros x Hx ->%list_elem_of_singleton. contradiction.
    + apply NoDup_singleton.
  - rewrite Forall_forall in Hnd. now apply Hnd.
Qed.

Lemma awardPoints_keeps_guessers_distinct_witness :
  let v := loadGameRoom "ABC123" (Ex.blank Ex.bob) Ex.round1 in
  let db' := awardPoints v "u_bob" 150 Ex.round1 in
  Forall (fun s => NoDup (Stats.correctGuessers s)) (gameStats db')
  /\ gameRooms db' = gameRooms Ex.round1
  /\ (findFirst (fun p => bool_decide (Player.userId p = "u_bob")) (players v) = None ->
      db' = Ex.round1).
Proof.
  intros v. apply (awardPoints_keeps_guessers_distinct v "u_bob" 150 Ex.round1).
  repeat constructor.
Defined.

(** X9.  The first correct guess of a player in a round: the player's id is
    appended to the round's correct-guesser list, the player's row gets the
    roster's score plus the points, whatever score it held, and no row with
    another id and no other table changes. *)
Theorem awardPoints_first_guess v r player stored stats playerId points db :
  room v = Some r ->
  findFirst (fun p => bool_decide (Player.userId p = playerId)) (players v) = Some player ->
  playerById (Player.id player) db = Some stored ->
  currentStats (Room.id r) (Room.currentRound r) db = Some stats ->
  playerId ∉ Stats.correctGuessers stats ->
  let db' := awardPoints v playerId points db in
  (Stats.correctGuessers <$> currentStats (Room.id r) (Room.currentRound r) db')
  = Some (Stats.correctGuessers stats ++ [playerId])
  /\ playerById (Player.id player) db'
     = Some (scorePatch (Player.score player + points) stored)
  /\ (forall i, i <> Player.id player -> playerById i db' = playerById i db)
  /\ gameRooms db' = gameRooms db
  /\ gameMessages db' = gameMessages db
  /\ drawingStrokes db' = drawingStrokes db.
Proof.
  intros Hroom Hview Hstored Hstats Hnotin db'. subst db'.
  unfold awardPoints. rewrite Hview, Hroom.
  set (db1 := with_roomPlayers _ db).
  assert (currentStats (Room.id r) (Room.currentRound r) db1 = Some stats) as Hstats1
    by exact Hstats.
  rewrite Hstats1, bool_decide_eq_false_2 by assumption.
  split; [|split; [|split; [|repeat split]]].
  - unfold currentStats. cbn [gameStats with_gameStats].
    rewrite findFirst_updateById by reflexivity.
    unfold currentStats in Hstats1. rewrite Hstats1. simpl.
    case_decide; [reflexivity|contradiction].
  - change (playerById (Player.id player) db1
            = Some (scorePatch (Player.score player + points) stored)).
    now apply awardPoints_score.
  - intros i Hne.
    change (playerById i db1 = playerById i db).
    unfold db1. rewrite playerById_update by reflexivity.
    destruct (playerById i db) as [x|] eqn:Hx; [|reflexivity]. simpl.
    apply findFirst_Some_pred, bool_decide_eq_true in Hx.
    case_decide; [congruence|reflexivity].
Qed.

(** bob's client holds the roster of the start of the round (score 0) while
    the stored row has 40 points: the award writes 0 + 150. *)
Lemma awardPoints_first_guess_witness :
  let v := loadGameRoom "ABC123" (Ex.blank Ex.bob) Ex.round1 in
  let db := Ex.store (Ex.roomRow playing 1 (Some "u_alice") (Some "cat")) 0 40 0
                     [Ex.statsRow 1 []] in
  let db' := awardPoints v "u_bob" 150 db in
  (Stats.correctGuessers <$> currentStats "room_1" 1 db') = Some ([] ++ ["u_bob"])
  /\ playerById "player_u_bob_room_1" db'
     = Some (scorePatch (0 + 150) (Ex.playerRow Ex.bob 40))
  /\ (forall i, i <> "player_u_bob_room_1" -> playerById i db' = playerById i db)
  /\ gameRooms db' = gameRooms db
  /\ gameMessages db' = gameMessages db
  /\ drawingStrokes db' = drawingStrokes db.
Proof.
  intros v db.
  apply (awardPoints_first_guess v
           (Ex.roomRow playing 1 (Some "u_alice") (Some "cat"))
           (Ex.playerRow Ex.bob 0) (Ex.playerRow Ex.bob 40) (Ex.statsRow 1 [])
           "u_bob" 150 db);
    try reflexivity.
  apply not_elem_of_nil.
Defined.

(** ** Two clients advancing the same round *)





(** ** The message list *)

(** X11.  [loadMessages] shows at most 50 messages, the oldest of the room
    in creation order; once a room holds 50 messages, one more stored
    message does not change what is loaded. *)
Theorem loadMessages_oldest_fifty roomId m db :
  let all := filter (fun x => Message.roomId x = roomId) (gameMessages db) in
  (length (loadMessages roomId db) <= 50)%nat
  /\ (exists later, all = loadMessages roomId db ++ later)
  /\ ((50 <= length all)%nat ->
      loadMessages roomId (storeMessage m db) = loadMessages roomId db).
Proof.
  intros all. unfold loadMessages. fold all. split; [|split].
  - rewrite length_take. lia.
  - exists (drop 50 all). symmetry. apply take_drop.
  - intros Hfull. unfold storeMessage, createRow.
    destruct (hasId Message.id (Message.id m) (gameMessages db)); [reflexivity|].
    cbn [gameMessages with_gameMessages]. rewrite filter_app. fold all.
    now apply take_app_le.
Qed.

Lemma sendMessage_message props user newMessage msgId sent :
  sendMessage props user newMessage msgId = Some sent ->
  Message.message (messageData sent) = trim newMessage
  /\ (chatGameState props = playing -> chatIsDrawer props = false).
Proof.
  unfold sendMessage. destruct user as [u|]; [|discriminate].
  case_bool_decide; [discriminate|].
  destruct (chatIsDrawer props) eqn:Hd; simpl.
  - case_bool_decide; [discriminate|]. intros [= <-]. split; [reflexivity|].
    contradiction.
  - intros [= <-]. auto.
Qed.

(** What [sendMessage] builds during a round is rendered either as the fixed
    phrase of a correct guess or as a text that differs from the word even
    after case folding. *)
Lemma sendMessage_hides_the_word props user newMessage msgId sent w :
  sendMessage props user newMessage msgId = Some sent ->
  chatGameState props = playing ->
  currentWord props = Some w ->
  w <> "" ->
  toLowerCase w <> toLowerCase "Guessed the word correctly!" ->
  toLowerCase (renderedText (messageData sent)) <> toLowerCase w.
Proof.
  intros Hs Hplay Hw Hne Hphrase.
  destruct (sendMessage_message _ _ _ _ _ Hs) as [Hmsg Hnodraw].
  apply sendMessage_Some in Hs as (u & _ & _ & Hg & Hc & _).
  rewrite (Hnodraw Hplay), bool_decide_eq_true_2 in Hg by assumption.
  rewrite Hg, Hw, (bool_decide_eq_false_2 (w = "")) in Hc by assumption.
  simpl in Hc. unfold renderedText. rewrite Hc.
  case_bool_decide as Heq.
  - intros E. apply Hphrase. now rewrite <- E.
  - rewrite Hmsg, <- trim_toLowerCase. exact Heq.
Qed.

Lemma submit_adds roomId w db s m :
  w <> "" ->
  toLowerCase w <> toLowerCase "Guessed the word correctly!" ->
  m ∈ gameMessages (submit roomId w db s) ->
  m ∈ gameMessages db \/ toLowerCase (renderedText m) <> toLowerCase w.
Proof.
  intros Hne Hphrase. unfold submit. cbv zeta.
  destruct (sendMessage _ (sender s) (text s) (messageId s)) as [sent|] eqn:Hsent;
    [|now left].
  unfold storeMessage, createRow.
  destruct (hasId Message.id _ (gameMessages db)); [now left|].
  cbn [gameMessages with_gameMessages].
  intros [Hold| ->%list_elem_of_singleton]%elem_of_app; [now left|].
  right. eapply sendMessage_hides_the_word; try eassumption; reflexivity.
Qed.

(** X12.  While a round is played, no submission adds a chat line that shows
    the secret word: after any sequence of submissions by any users, a line
    of the loaded chat whose rendered text equals the word up to letter case
    is a message that was stored before these submissions.  (A correct guess
    is rendered as a fixed phrase, every other accepted text differs from
    the word.) *)
Theorem round_adds_no_line_with_the_word roomId w submissions db m :
  w <> "" ->
  toLowerCase w <> toLowerCase "Guessed the word correctly!" ->
  m ∈ loadMessages roomId (foldl (submit roomId w) db submissions) ->
  toLowerCase (renderedText m) = toLowerCase w ->
  m ∈ gameMessages db.
Proof.
  intros Hne Hphrase Hshown Hword.
  assert (m ∈ gameMessages (foldl (submit roomId w) db submissions)) as Hstored.
  { unfold loadMessages in Hshown.
    apply elem_of_take in Hshown as (i & Hi & _).
    apply list_elem_of_lookup_2, list_elem_of_filter in Hi. apply Hi. }
  clear Hshown. revert db Hstored.
  induction submissions as [|s l IH]; intros db Hstored; [exact Hstored|].
  cbn [foldl] in Hstored. apply IH in Hstored.
  destruct (submit_adds _ _ _ _ _ Hne Hphrase Hstored) as [Hold|Hdiff];
    [exact Hold|contradiction].
Qed.

(** The lobby chat holds carol's message "cat"; in the round with the word
    "cat" bob sends "dog" and then " Cat ", alice, who draws, tries "cat".
    The one line that shows the word is carol's. *)
Lemma round_adds_no_line_with_the_word_witness :
  let lobbyLine :=
    {| Message.id := "msg_0"; Message.roomId := "room_1"; Message.userId := "u_carol";
       Message.displayName := "carol"; Message.message := "cat";
       Message.isGuess := false; Message.isCorrect := false |} in
  let db := with_gameMessages (fun _ => [lobbyLine]) Ex.round1 in
  let submissions :=
    [ {| sender := Some Ex.bob; senderIsDrawer := false;
         text := "dog"; messageId := "msg_1" |};
      {| sender := Some Ex.bob; senderIsDrawer := false;
         text := " Cat "; messageId := "msg_2" |};
      {| sender := Some Ex.alice; senderIsDrawer := true;
         text := "cat"; messageId := "msg_3" |} ] in
  length (loadMessages "room_1" (foldl (submit "room_1" "cat") db submissions)) = 3%nat
  /\ lobbyLine ∈ gameMessages db.
Proof.
  intros lobbyLine db submissions. split; [reflexivity|].
  apply (round_adds_no_line_with_the_word "room_1" "cat" submissions db lobbyLine);
    [discriminate|discriminate| |reflexivity].
  vm_compute. left.
Defined.

(** ** Strokes: drawing, undoing, clearing *)

Lemma filter_ext_in {A} (P Q : A -> Prop) `{!forall x, Decision (P x)}
    `{!forall x, Decision (Q x)} (l : list A) :
  (forall x, x ∈ l -> P x <-> Q x) -> filter P l = filter Q l.
Proof.
  induction l as [|a l IH]; intros Hiff; [reflexivity|].
  rewrite !filter_cons.
  assert (filter P l = filter Q l) as ->.
  { apply IH. intros x Hx. apply Hiff. now right. }
  specialize (Hiff a (list_elem_of_here _ _)).
  destruct (decide (P a)), (decide (Q a)); tauto.
Qed.

Section Strokes.
Variable covers : list Point -> Z -> Z -> Z -> bool.

Lemma draw_fold props moves st :
  propCanDraw props = true ->
  isDrawing st = true ->
  let st' := foldl (fun st p => draw covers props p st) st moves in
  isDrawing st' = true
  /\ currentStroke st' = currentStroke st ++ moves
  /\ eraserOn st' = eraserOn st
  /\ currentColor st' = currentColor st
  /\ brushSize st' = brushSize st
  /\ strokes st' = strokes st.
Proof.
  intros Hcan. revert st. induction moves as [|p moves IH]; intros st Hdrawing; simpl.
  - rewrite app_nil_r. repeat split; try reflexivity; assumption.
  - assert (isDrawing (draw covers props p st) = true
            /\ currentStroke (draw covers props p st) = currentStroke st ++ [p]
            /\ eraserOn (draw covers props p st) = eraserOn st
            /\ currentColor (draw covers props p st) = currentColor st
            /\ brushSize (draw covers props p st) = brushSize st
            /\ strokes (draw covers props p st) = strokes st)
      as (H1 & H2 & H3 & H4 & H5 & H6).
    { unfold draw. rewrite Hdrawing, Hcan. simpl. repeat split. }
    destruct (IH _ H1) as (-> & -> & -> & -> & -> & ->).
    rewrite H2, H3, H4, H5, H6, <- app_assoc. repeat split.
Qed.

Lemma gesture_state props p0 moves st :
  propCanDraw props = true ->
  let st' := gesture covers props p0 moves st in
  isDrawing st' = true
  /\ currentStroke st' = p0 :: moves
  /\ eraserOn st' = eraserOn st
  /\ currentColor st' = currentColor st
  /\ brushSize st' = brushSize st
  /\ strokes st' = strokes st.
Proof.
  intros Hcan. unfold gesture.
  assert (startDrawing props p0 st
          = set_ctx (fun c => moveTo p0 (beginPath c)) (set_drawing true [p0] st)) as Hstart
    by (unfold startDrawing; now rewrite Hcan).
  destruct (draw_fold props moves (startDrawing props p0 st) Hcan)
    as (-> & -> & -> & -> & -> & ->); rewrite Hstart; simpl; repeat split.
Qed.

(** The row [stopDrawing] writes for a gesture. *)
Lemma stopDrawing_gesture props p0 moves strokeId st db :
  propCanDraw props = true ->
  moves <> [] ->
  hasId Stroke.id strokeId (drawingStrokes db) = false ->
  stopDrawing props strokeId (gesture covers props p0 moves st) db
  = (set_drawing false [] (gesture covers props p0 moves st),
     with_drawingStrokes
       (fun _ => drawingStrokes db ++
          [ {| Stroke.id := strokeId;
               Stroke.roomId := canvasRoomId props;
               Stroke.roundNumber := propCurrentRound props;
               Stroke.strokeData :=
                 Some {| points := p0 :: moves;
                         color := if eraserOn st then "#ffffff" else currentColor st;
                         size := brushSize st;
                         isEraser := eraserOn st |} |} ]) db).
Proof.
  intros Hcan Hmoves Hfresh.
  destruct (gesture_state props p0 moves st Hcan) as (Hd & Hs & He & Hc & Hb & _).
  unfold stopDrawing. rewrite Hd, Hcan, Hs, He, Hc, Hb.
  assert ((Z.of_nat (length (p0 :: moves)) <? 2) = false) as ->.
  { destruct moves; [contradiction|]. cbn [length]. apply Z.ltb_ge. lia. }
  cbn [negb orb]. unfold createRow. cbn [Stroke.id]. rewrite Hfresh. reflexivity.
Qed.

(** X13.  A pen gesture (mouse down, some moves, mouse up) by the drawer is
    stored as one stroke holding every point of the gesture in order, with
    the pen's colour, width and eraser flag, under the current room and
    round; a mouse down and up without a move stores nothing. *)
Theorem stopDrawing_stores_the_gesture props p0 moves strokeId st db :
  propCanDraw props = true ->
  hasId Stroke.id strokeId (drawingStrokes db) = false ->
  let after := stopDrawing props strokeId (gesture covers props p0 moves st) db in
  isDrawing after.1 = false
  /\ currentStroke after.1 = []
  /\ if decide (moves = []) then after.2 = db
     else
       drawingStrokes after.2
       = drawingStrokes db ++
           [ {| Stroke.id := strokeId;
                Stroke.roomId := canvasRoomId props;
                Stroke.roundNumber := propCurrentRound props;
                Stroke.strokeData :=
                  Some {| points := p0 :: moves;
                          color := if eraserOn st then "#ffffff" else currentColor st;
                          size := brushSize st;
                          isEraser := eraserOn st |} |} ].
Proof.
  intros Hcan Hfresh after. subst after.
  case_decide as Hmoves.
  - subst moves.
    destruct (gesture_state props p0 [] st Hcan) as (Hd & Hs & _).
    unfold stopDrawing. rewrite Hd, Hcan, Hs. simpl. repeat split.
  - rewrite stopDrawing_gesture by assumption. simpl. repeat split.
Qed.

(** X14.  Undo takes back the stroke just drawn: after a gesture was stored
    and the strokes reloaded, [undoLastStroke] leaves the store exactly as it
    was before the gesture. *)
Theorem undo_takes_back_the_stroke props p0 moves strokeId st db :
  propCanDraw props = true ->
  moves <> [] ->
  hasId Stroke.id strokeId (drawingStrokes db) = false ->
  let after := stopDrawing props strokeId (gesture covers props p0 moves st) db in
  let reloaded := loadStrokes covers props after.1 after.2 in
  undoLastStroke props reloaded after.2 = db.
Proof.
  intros Hcan Hmoves Hfresh after reloaded. subst reloaded after.
  rewrite stopDrawing_gesture by assumption. cbn [fst snd].
  unfold undoLastStroke. rewrite Hcan. cbn [negb].
  unfold loadStrokes. cbn [strokes set_ctx set_strokes drawingStrokes with_drawingStrokes].
  rewrite filter_app, filter_cons_True by (split; reflexivity).
  rewrite filter_nil, last_snoc. cbn [Stroke.id].
  unfold with_drawingStrokes. cbn [drawingStrokes gameRooms roomPlayers gameStats gameMessages].
  rewrite filter_app, filter_cons_False by (intros H; now apply H).
  rewrite filter_nil, app_nil_r.
  assert (filter (fun s => Stroke.id s <> strokeId) (drawingStrokes db) = drawingStrokes db)
    as ->.
  { apply bool_decide_eq_false in Hfresh.
    induction (drawingStrokes db) as [|s l IH]; [reflexivity|].
    rewrite fmap_cons, not_elem_of_cons in Hfresh. destruct Hfresh as [Hs Hl].
    rewrite filter_cons_True by congruence. now rewrite IH. }
  now destruct db.
Qed.

Lemma deleteStroke_fold (l : list Stroke.t) db :
  drawingStrokes (foldl (fun db s => deleteStroke (Stroke.id s) db) db l)
  = filter (fun s => Stroke.id s ∉ Stroke.id <$> l) (drawingStrokes db)
  /\ gameRooms (foldl (fun db s => deleteStroke (Stroke.id s) db) db l) = gameRooms db
  /\ roomPlayers (foldl (fun db s => deleteStroke (Stroke.id s) db) db l) = roomPlayers db
  /\ gameStats (foldl (fun db s => deleteStroke (Stroke.id s) db) db l) = gameStats db
  /\ gameMessages (foldl (fun db s => deleteStroke (Stroke.id s) db) db l) = gameMessages db.
Proof.
  revert db. induction l as [|a l IH]; intros db.
  - simpl. split; [|repeat split]. symmetry.
    induction (drawingStrokes db) as [|s k IHk]; [reflexivity|].
    rewrite filter_cons_True by apply not_elem_of_nil. now rewrite IHk.
  - cbn [foldl]. destruct (IH (deleteStroke (Stroke.id a) db)) as (-> & -> & -> & -> & ->).
    cbn [deleteStroke with_drawingStrokes drawingStrokes gameRooms roomPlayers
         gameStats gameMessages].
    split; [|repeat split].
    rewrite list_filter_filter. apply list_filter_iff. intros s.
    rewrite fmap_cons, not_elem_of_cons. tauto.
Qed.

(** X15.  [clearCanvas] by the drawer removes every stroke of the current
    room and round from the store and no other stroke (stroke ids being
    unique); nothing else in the store changes, the local list is emptied,
    and a reload finds no stroke to replay. *)
Theorem clearCanvas_removes_the_round props st db :
  propCanDraw props = true ->
  NoDup (Stroke.id <$> drawingStrokes db) ->
  let cleared := clearCanvas props st db in
  drawingStrokes cleared.2
  = filter (fun s => ~ (Stroke.roomId s = canvasRoomId props
                        /\ Stroke.roundNumber s = propCurrentRound props))
           (drawingStrokes db)
  /\ gameRooms cleared.2 = gameRooms db
  /\ roomPlayers cleared.2 = roomPlayers db
  /\ gameStats cleared.2 = gameStats db
  /\ gameMessages cleared.2 = gameMessages db
  /\ strokes cleared.1 = []
  /\ strokes (loadStrokes covers props cleared.1 cleared.2) = [].
Proof.
  intros Hcan Hnd cleared. subst cleared. unfold clearCanvas. rewrite Hcan.
  cbn [negb fst snd]. cbv zeta.
  set (mine := fun s => Stroke.roomId s = canvasRoomId props
                        /\ Stroke.roundNumber s = propCurrentRound props).
  destruct (deleteStroke_fold (filter mine (drawingStrokes db)) db)
    as (Hstrokes & -> & -> & -> & ->).
  assert (filter (fun s => Stroke.id s ∉ Stroke.id <$> filter mine (drawingStrokes db))
                 (drawingStrokes db)
          = filter (fun s => ~ mine s) (drawingStrokes db)) as Hkept.
  { apply filter_ext_in. intros s Hs. split.
    - intros Hnot Hmine. apply Hnot. apply list_elem_of_fmap. exists s.
      split; [reflexivity|]. now apply list_elem_of_filter.
    - intros Hnot [s' [Heq [Hmine' Hs']%list_elem_of_filter]]%list_elem_of_fmap.
      apply Hnot.
      now rewrite (NoDup_fmap_elem Stroke.id (drawingStrokes db) s s' Hnd Hs Hs' Heq). }
  rewrite Hstrokes, Hkept.
  repeat (split; [reflexivity|]).
  unfold loadStrokes. cbn [strokes set_ctx set_strokes]. rewrite Hstrokes, Hkept.
  fold mine. rewrite list_filter_filter.
  clear. induction (drawingStrokes db) as [|s l IH]; [reflexivity|].
  rewrite filter_cons_False by tauto. apply IH.
Qed.

End Strokes.

(** ** What a replay shows *)

Section ReplayResult.
Variable covers : list Point -> Z -> Z -> Z -> bool.

Lemma lastCovering_app l1 l2 x y :
  lastCovering covers (l1 ++ l2) x y
  = match lastCovering covers l2 x y with
    | Some sd => Some sd
    | None => lastCovering covers l1 x y
    end.
Proof.
  unfold lastCovering. rewrite filter_app, last_app.
  now destruct (last (filter _ l2)).
Qed.

Lemma drawnStrokes_cons s log :
  drawnStrokes (s :: log)
  = match Stroke.strokeData s with
    | Some sd => if decide (2 <= length (points sd))%nat then [sd] else []
    | None => []
    end ++ drawnStrokes log.
Proof.
  unfold drawnStrokes. cbn [omap list_omap]. fold (omap Stroke.strokeData log).
  destruct (Stroke.strokeData s) as [sd|]; [|reflexivity].
  rewrite filter_cons. now destruct (decide (2 <= length (points sd))%nat).
Qed.

Lemma replay_fold (b : Ctx) log x y :
  inCanvas x y = true ->
  pixels (foldl (fun c s =>
                   match Stroke.strokeData s with
                   | Some strokeData => drawStroke covers c strokeData
                   | None => c
                   end) b log) x y
  = match lastCovering covers (drawnStrokes log) x y with
    | Some sd => if isEraser sd then None else Some (color sd)
    | None => pixels b x y
    end.
Proof.
  intros Hin. revert b. induction log as [|s log IH]; intros b; [reflexivity|].
  cbn [foldl]. rewrite IH, drawnStrokes_cons, lastCovering_app.
  destruct (lastCovering covers (drawnStrokes log) x y) as [sd'|]; [reflexivity|].
  destruct (Stroke.strokeData s) as [sd|]; [|reflexivity].
  destruct (points sd) as [|p0 [|p1 rest]] eqn:Hpts.
  1,2: rewrite drawStroke_skipped by (rewrite Hpts; simpl; lia);
       rewrite decide_False by (simpl; lia); reflexivity.
  rewrite decide_True by (simpl; lia).
  destruct (drawStroke_drawn covers b sd p0 p1 rest Hpts) as [_ Hpx].
  rewrite Hpx, Hin. unfold lastCovering. cbn [andb].
  rewrite filter_cons, Hpts.
  destruct (covers (p0 :: p1 :: rest) (size sd) x y) eqn:Hc.
  - rewrite decide_True by reflexivity. cbn. now destruct (isEraser sd).
  - rewrite decide_False by discriminate. reflexivity.
Qed.

(** X16.  In a context left in source-over mode a redraw yields a bitmap
    fixed by the stroke log alone: at each canvas pixel the last drawn stroke
    that covers it decides (its colour for a pen stroke, transparency for an
    eraser stroke) and a pixel that no drawn stroke covers is white.
    Strokes whose JSON does not parse or that have fewer than two points
    leave no trace. *)
Theorem redraw_last_stroke_wins c log x y :
  globalCompositeOperation c = source_over ->
  inCanvas x y = true ->
  pixels (redrawCanvas covers c log) x y
  = match lastCovering covers (drawnStrokes log) x y with
    | Some sd => if isEraser sd then None else Some (color sd)
    | None => Some "#ffffff"
    end.
Proof.
  intros Hop Hin. unfold redrawCanvas. rewrite replay_fold by assumption.
  destruct (lastCovering covers (drawnStrokes log) x y); [reflexivity|].
  simpl. now rewrite Hin, Hop.
Qed.

Lemma last_drawnStrokes_cons s log :
  last (drawnStrokes (s :: log))
  = match last (drawnStrokes log) with
    | Some sd => Some sd
    | None => last (drawnStrokes [s])
    end.
Proof.
  rewrite (drawnStrokes_cons s log), (drawnStrokes_cons s []).
  unfold drawnStrokes at 3. cbn [omap list_omap]. rewrite filter_nil, app_nil_r.
  rewrite last_app. now destruct (last (drawnStrokes log)).
Qed.

Lemma replay_mode (b : Ctx) log :
  globalCompositeOperation
    (foldl (fun c s =>
              match Stroke.strokeData s with
              | Some strokeData => drawStroke covers c strokeData
              | None => c
              end) b log)
  = match last (drawnStrokes log) with
    | Some sd => if isEraser sd then destination_out else source_over
    | None => globalCompositeOperation b
    end.
Proof.
  revert b. induction log as [|s log IH]; intros b; [reflexivity|].
  cbn [foldl]. rewrite IH, last_drawnStrokes_cons.
  destruct (last (drawnStrokes log)) as [sd'|]; [reflexivity|].
  rewrite (drawnStrokes_cons s []).
  unfold drawnStrokes at 1. cbn [omap list_omap]. rewrite filter_nil, app_nil_r.
  destruct (Stroke.strokeData s) as [sd|]; [|reflexivity].
  destruct (points sd) as [|p0 [|p1 rest]] eqn:Hpts.
  1,2: rewrite drawStroke_skipped by (rewrite Hpts; simpl; lia);
       rewrite decide_False by (simpl; lia); reflexivity.
  rewrite decide_True by (simpl; lia).
  destruct (drawStroke_drawn covers b sd p0 p1 rest Hpts) as [Hop _].
  rewrite Hop. reflexivity.
Qed.

(** X17.  A redraw in any context: at a canvas pixel that a drawn stroke
    covers the last such stroke decides (its colour for a pen stroke,
    transparency for an eraser stroke), whatever the context held; the state
    of the context shows only where no drawn stroke covers the pixel, which
    is white after source-over and transparent after destination-out.  The
    redraw leaves the context in the mode of the last drawn stroke, and in
    the mode it had when no stroke is drawn. *)
Theorem redraw_from_any_context c log x y :
  inCanvas x y = true ->
  pixels (redrawCanvas covers c log) x y
  = match lastCovering covers (drawnStrokes log) x y with
    | Some sd => if isEraser sd then None else Some (color sd)
    | None =>
        match globalCompositeOperation c with
        | source_over => Some "#ffffff"
        | destination_out => None
        end
    end
  /\ globalCompositeOperation (redrawCanvas covers c log)
     = match last (drawnStrokes log) with
       | Some sd => if isEraser sd then destination_out else source_over
       | None => globalCompositeOperation c
       end.
Proof.
  intros Hin. unfold redrawCanvas. rewrite replay_fold, replay_mode by assumption.
  split; [|reflexivity].
  destruct (lastCovering covers (drawnStrokes log) x y); [reflexivity|].
  simpl. rewrite Hin. now destruct (globalCompositeOperation c).
Qed.

(** X18.  A new round replays nothing: when the store holds no stroke of the
    current room and round, [loadStrokes] empties the local list and no paint
    of an earlier round is left on the canvas: every canvas pixel is white,
    or transparent when the context was left in destination-out mode, and
    the mode stays as it was. *)
Theorem new_round_replays_nothing props st db x y :
  (forall s, s ∈ drawingStrokes db ->
             ~ (Stroke.roomId s = canvasRoomId props
                /\ Stroke.roundNumber s = propCurrentRound props)) ->
  inCanvas x y = true ->
  strokes (loadStrokes covers props st db) = []
  /\ pixels (ctx (loadStrokes covers props st db)) x y
     = match globalCompositeOperation (ctx st) with
       | source_over => Some "#ffffff"
       | destination_out => None
       end
  /\ globalCompositeOperation (ctx (loadStrokes covers props st db))
     = globalCompositeOperation (ctx st).
Proof.
  intros Hnone Hin. unfold loadStrokes.
  assert (filter (fun s => Stroke.roomId s = canvasRoomId props
                           /\ Stroke.roundNumber s = propCurrentRound props)
                 (drawingStrokes db) = []) as ->.
  { induction (drawingStrokes db) as [|s l IH]; [reflexivity|].
    rewrite filter_cons_False by (apply Hnone; left).
    apply IH. intros s' Hs'. apply Hnone. now right. }
  split; [reflexivity|].
  simpl. rewrite Hin. split; [|reflexivity].
  now destruct (globalCompositeOperation (ctx st)).
Qed.

End ReplayResult.

Lemma stopDrawing_stores_the_gesture_witness :
  let after :=
    stopDrawing Ex.drawerProps "stroke_7"
      (gesture Ex2.raster Ex.drawerProps Ex2.p10 [Ex2.p20] Ex.mounted) Ex.round1 in
  isDrawing after.1 = false
  /\ currentStroke after.1 = []
  /\ if decide ([Ex2.p20] = []) then after.2 = Ex.round1
     else
       drawingStrokes after.2
       = drawingStrokes Ex.round1 ++
           [ {| Stroke.id := "stroke_7";
                Stroke.roomId := "room_1";
                Stroke.roundNumber := 1;
                Stroke.strokeData :=
                  Some {| points := [Ex2.p10; Ex2.p20];
                          color := "#000000";
                          size := 5;
                          isEraser := false |} |} ].
Proof.
  apply (stopDrawing_stores_the_gesture Ex2.raster Ex.drawerProps Ex2.p10 [Ex2.p20]
           "stroke_7" Ex.mounted Ex.round1); reflexivity.
Defined.

Lemma undo_takes_back_the_stroke_witness :
  let after :=
    stopDrawing Ex.drawerProps "stroke_7"
      (gesture Ex2.raster Ex.drawerProps Ex2.p10 [Ex2.p20] Ex.mounted) Ex.round1 in
  let reloaded := loadStrokes Ex2.raster Ex.drawerProps after.1 after.2 in
  undoLastStroke Ex.drawerProps reloaded after.2 = Ex.round1.
Proof.
  apply (undo_takes_back_the_stroke Ex2.raster Ex.drawerProps Ex2.p10 [Ex2.p20]
           "stroke_7" Ex.mounted Ex.round1); [reflexivity | discriminate | reflexivity].
Defined.

Lemma clearCanvas_removes_the_round_witness :
  let db := Ex.drawn [Ex.eraserStroke; Ex2.penStroke] in
  let cleared := clearCanvas Ex.drawerProps Ex.mounted db in
  drawingStrokes cleared.2
  = filter (fun s => ~ (Stroke.roomId s = "room_1" /\ Stroke.roundNumber s = 1))
           (drawingStrokes db)
  /\ gameRooms cleared.2 = gameRooms db
  /\ roomPlayers cleared.2 = roomPlayers db
  /\ gameStats cleared.2 = gameStats db
  /\ gameMessages cleared.2 = gameMessages db
  /\ strokes cleared.1 = []
  /\ strokes (loadStrokes Ex2.raster Ex.drawerProps cleared.1 cleared.2) = [].
Proof.
  intros db.
  apply (clearCanvas_removes_the_round Ex2.raster Ex.drawerProps Ex.mounted db);
    [reflexivity|].
  apply (bool_decide_unpack _). vm_compute. exact I.
Defined.

Lemma redraw_last_stroke_wins_witness :
  pixels (redrawCanvas Ex2.raster freshCtx [Ex2.penStroke; Ex.eraserStroke]) 10 10
  = match lastCovering Ex2.raster
            (drawnStrokes [Ex2.penStroke; Ex.eraserStroke]) 10 10 with
    | Some sd => if isEraser sd then None else Some (color sd)
    | None => Some "#ffffff"
    end.
Proof.
  apply (redraw_last_stroke_wins Ex2.raster freshCtx
           [Ex2.penStroke; Ex.eraserStroke] 10 10); reflexivity.
Defined.

(** A client that has replayed an eraser stroke redraws a pen stroke: the
    pixel under the pen stroke holds its colour, the context is back in
    source-over mode. *)
Lemma redraw_from_any_context_witness :
  let c := redrawCanvas Ex2.raster freshCtx [Ex.eraserStroke] in
  pixels (redrawCanvas Ex2.raster c [Ex2.penStroke]) 20 20
  = match lastCovering Ex2.raster (drawnStrokes [Ex2.penStroke]) 20 20 with
    | Some sd => if isEraser sd then None else Some (color sd)
    | None =>
        match globalCompositeOperation c with
        | source_over => Some "#ffffff"
        | destination_out => None
        end
    end
  /\ globalCompositeOperation (redrawCanvas Ex2.raster c [Ex2.penStroke])
     = match last (drawnStrokes [Ex2.penStroke]) with
       | Some sd => if isEraser sd then destination_out else source_over
       | None => globalCompositeOperation c
       end.
Proof.
  intros c.
  apply (redraw_from_any_context Ex2.raster c [Ex2.penStroke] 20 20).
  reflexivity.
Defined.

Example redraw_pen_over_eraser :
  pixels (redrawCanvas Ex2.raster freshCtx [Ex.eraserStroke; Ex2.penStroke]) 20 20
  = Some "#FF6B6B".
Proof. reflexivity. Qed.

(** Round 2 after a round 1 whose last stroke was a pen stroke: the list
    is empty and the pixel is white. *)
Lemma new_round_replays_nothing_witness :
  let db := Ex.drawn [Ex.eraserStroke; Ex2.penStroke] in
  let st := loadStrokes Ex2.raster Ex.drawerProps Ex.mounted db in
  strokes (loadStrokes Ex2.raster Ex2.round2Props st db) = []
  /\ pixels (ctx (loadStrokes Ex2.raster Ex2.round2Props st db)) 10 10
     = match globalCompositeOperation (ctx st) with
       | source_over => Some "#ffffff"
       | destination_out => None
       end
  /\ globalCompositeOperation (ctx (loadStrokes Ex2.raster Ex2.round2Props st db))
     = globalCompositeOperation (ctx st).
Proof.
  intros db st.
  apply (new_round_replays_nothing Ex2.raster Ex2.round2Props st db 10 10);
    [|reflexivity].
  intros s Hs [_ Hround].
  apply elem_of_cons in Hs as [->|Hs]; [discriminate Hround|].
  apply list_elem_of_singleton in Hs as ->. discriminate Hround.
Defined.

(** ** The player list *)

Lemma insertDesc_perm {A} (score : A -> Z) p l : insertDesc score p l ≡ₚ p :: l.
Proof.
  induction l as [|q l IH]; simpl; [reflexivity|].
  destruct (score q <=? score p); [reflexivity|].
  rewrite IH. apply Permutation_swap.
Qed.

Lemma sortedPlayers_perm players : sortedPlayers players ≡ₚ players.
Proof.
  unfold sortedPlayers. induction players as [|p l IH]; simpl; [reflexivity|].
  now rewrite insertDesc_perm, IH.
Qed.

Lemma insertDesc_sorted {A} (score : A -> Z) p l :
  StronglySorted (fun a b => score b <= score a) l ->
  StronglySorted (fun a b => score b <= score a) (insertDesc score p l).
Proof.
  induction 1 as [|q l Hl IH Hq]; simpl.
  - repeat constructor.
  - destruct (score q <=? score p) eqn:E.
    + constructor; [now constructor|].
      constructor; [lia|].
      eapply Forall_impl; [exact Hq|]. intros x Hx. cbv beta in *. lia.
    + constructor; [exact IH|].
      rewrite insertDesc_perm. constructor; [lia|exact Hq].
Qed.

Lemma sortedPlayers_sorted players :
  StronglySorted (fun a b => Listed.score b <= Listed.score a) (sortedPlayers players).
Proof.
  unfold sortedPlayers. induction players as [|p l IH]; simpl; [constructor|].
  now apply insertDesc_sorted.
Qed.

(** X19.  The ranking of the player list holds exactly the given players and
    is ordered by descending score. *)
Theorem sortedPlayers_ranks_by_score players :
  sortedPlayers players ≡ₚ players
  /\ StronglySorted (fun a b => Listed.score b <= Listed.score a)
                    (sortedPlayers players).
Proof. split; [apply sortedPlayers_perm|apply sortedPlayers_sorted]. Qed.

(** X20.  In the regular list the Leader badge can only appear on the first
    row, and then on a player who is not drawing, has a positive score and
    scores at least as much as every player. *)
Theorem leader_badge_is_for_the_top currentDrawerId players index player :
  regularRows currentDrawerId players !! index = Some (player, LeaderBadge) ->
  index = 0%nat
  /\ 0 < Listed.score player
  /\ Some (Listed.userId player) <> currentDrawerId
  /\ forall q, q ∈ players -> Listed.score q <= Listed.score player.
Proof.
  unfold regularRows. rewrite list_lookup_imap.
  destruct (sortedPlayers players !! index) as [p|] eqn:Hp; [|discriminate].
  simpl. intros [= -> Hbadge]. unfold getPlayerBadge in Hbadge.
  case_bool_decide as Hdrawer; [discriminate|].
  destruct (bool_decide (index = 0%nat) && (0 <? Listed.score player)) eqn:Htop;
    [|discriminate].
  apply andb_true_iff in Htop as [->%bool_decide_eq_true Hpos].
  split; [reflexivity|]. split; [lia|]. split; [exact Hdrawer|].
  intros q Hq. rewrite <- sortedPlayers_perm in Hq.
  pose proof (sortedPlayers_sorted players) as Hsorted.
  destruct (sortedPlayers players) as [|top rest]; [discriminate|].
  injection Hp as ->. apply StronglySorted_inv in Hsorted as [_ Hall].
  apply elem_of_cons in Hq as [->|Hq]; [lia|].
  rewrite Forall_forall in Hall. now apply Hall.
Qed.

Lemma leader_badge_is_for_the_top_witness :
  let players := [ Ex2.listed "u_alice" 0 None; Ex2.listed "u_bob" 150 None;
                   Ex2.listed "u_carol" 300 None ] in
  0%nat = 0%nat
  /\ 0 < Listed.score (Ex2.listed "u_carol" 300 None)
  /\ Some (Listed.userId (Ex2.listed "u_carol" 300 None)) <> Some "u_alice"
  /\ forall q, q ∈ players -> Listed.score q <= Listed.score (Ex2.listed "u_carol" 300 None).
Proof.
  intros players.
  apply (leader_badge_is_for_the_top (Some "u_alice") players 0
           (Ex2.listed "u_carol" 300 None)).
  reflexivity.
Defined.

Lemma sumScores_from (a b : Z) l :
  foldl (fun sum p => sum + Listed.score p) (a + b) l
  = a + foldl (fun sum p => sum + Listed.score p) b l.
Proof.
  revert b. induction l as [|p l IH]; intros b; [reflexivity|].
  cbn [foldl]. rewrite <- Z.add_assoc. apply IH.
Qed.

Lemma sumScores_cons p l : sumScores (p :: l) = Listed.score p + sumScores l.
Proof. unfold sumScores. cbn [foldl]. rewrite Z.add_comm. apply sumScores_from. Qed.

(** X21.  The team totals of team mode split the scores without overlap:
    red and blue totals add up to the total score of the players on either
    team, players on no team counting for neither, and no player is listed
    on both teams; outside team mode there are no team stats. *)
Theorem team_scores_add_up players :
  getTeamStats false players = None
  /\ exists ts,
       getTeamStats true players = Some ts
       /\ redScore ts + blueScore ts
          = sumScores (filter (fun p => Listed.team p = Some "red"
                                        \/ Listed.team p = Some "blue") players)
       /\ forall p, p ∈ redTeam ts -> p ∉ blueTeam ts.
Proof.
  split; [reflexivity|]. eexists. split; [reflexivity|]. cbn. split.
  - induction players as [|p l IH]; [reflexivity|].
    rewrite !filter_cons.
    destruct (decide (Listed.team p = Some "red")) as [Hr|Hr];
      destruct (decide (Listed.team p = Some "blue")) as [Hb|Hb];
      try congruence.
    + rewrite decide_True by tauto. rewrite !sumScores_cons. lia.
    + rewrite decide_True by tauto. rewrite !sumScores_cons. lia.
    + rewrite decide_False by tauto. exact IH.
  - intros p [Hr _]%list_elem_of_filter [Hb _]%list_elem_of_filter. congruence.
Qed.

(** ** The word display *)

Lemma blanks_pattern w1 w2 : spacePattern w1 = spacePattern w2 -> blanks w1 = blanks w2.
Proof.
  revert w2. induction w1 as [|c1 w1 IH]; intros [|c2 w2]; simpl; try discriminate;
    [reflexivity|].
  intros [= Hc Hw]. rewrite Hc, (IH _ Hw). reflexivity.
Qed.

(** X22.  A guesser sees only the shape of the word: two secret words with
    their spaces at the same places are displayed alike to every
    non-drawer, in every game state. *)
Theorem guesser_sees_only_the_shape w1 w2 gameState :
  spacePattern w1 = spacePattern w2 ->
  wordDisplay (Some w1) false gameState = wordDisplay (Some w2) false gameState.
Proof.
  intros Hpat. unfold wordDisplay, getWordDisplay.
  rewrite (blanks_pattern _ _ Hpat).
  assert (bool_decide (w1 = "") = bool_decide (w2 = "")) as ->; [|reflexivity].
  destruct w1, w2; simpl in Hpat; try discriminate; reflexivity.
Qed.

Lemma guesser_sees_only_the_shape_witness :
  wordDisplay (Some "ice cream") false playing
  = wordDisplay (Some "hot dough") false playing.
Proof. apply (guesser_sees_only_the_shape "ice cream" "hot dough" playing). reflexivity. Defined.

Example wordDisplay_guesser :
  wordDisplay (Some "ice cream") false playing = Some "_ _ _   _ _ _ _ _".
Proof. reflexivity. Qed.

Example wordDisplay_drawer :
  wordDisplay (Some "ice cream") true playing = Some "ICE CREAM".
Proof. reflexivity. Qed.

(** ** Room codes *)

Lemma charAt_codeChars i :
  0 <= i < 36 ->
  exists c, charAt codeChars i = String c EmptyString
            /\ isCodeChar c = true /\ upperChar c = c.
Proof.
  intros Hi.
  assert (Forall (fun k => exists c, charAt codeChars k = String c EmptyString
                                     /\ isCodeChar c = true /\ upperChar c = c)
                 (seqZ 0 36)) as Hall.
  { repeat (constructor; [eexists; repeat split|]). constructor. }
  rewrite Forall_forall in Hall. apply Hall. apply elem_of_seqZ. lia.
Qed.

Lemma random_index (random : Q) :
  (0 <= random)%Q -> (random < 1)%Q ->
  0 <= Qfloor (random * inject_Z (Z.of_nat (String.length codeChars)))%Q < 36.
Proof.
  intros H0 H1. change (Z.of_nat (String.length codeChars)) with 36. split.
  - change 0 with (Qfloor 0). apply Qfloor_resp_le.
    apply Qmult_le_0_compat; [assumption|discriminate].
  - rewrite Zlt_Qlt. eapply Qle_lt_trans; [apply Qfloor_le|].
    rewrite <- (Qmult_1_l (inject_Z 36)) at 2.
    apply Qmult_lt_compat_r; [reflexivity|assumption].
Qed.

(** X23.  A generated room code has exactly six characters, each an
    upper-case letter or a digit, so upper-casing it (as joining does with
    the code typed in) leaves it unchanged. *)
Theorem generateRoomCode_shape random :
  (forall i, (i < 6)%nat -> (0 <= random i)%Q /\ (random i < 1)%Q) ->
  String.length (generateRoomCode random) = 6%nat
  /\ hasChar (fun c => negb (isCodeChar c)) (generateRoomCode random) = false
  /\ toUpperCase (generateRoomCode random) = generateRoomCode random.
Proof.
  intros Hr. unfold generateRoomCode. cbn [seq foldl].
  destruct (charAt_codeChars _ (random_index _ (proj1 (Hr 0%nat ltac:(lia)))
                                  (proj2 (Hr 0%nat ltac:(lia))))) as (c0 & -> & H0 & U0).
  destruct (charAt_codeChars _ (random_index _ (proj1 (Hr 1%nat ltac:(lia)))
                                  (proj2 (Hr 1%nat ltac:(lia))))) as (c1 & -> & H1 & U1).
  destruct (charAt_codeChars _ (random_index _ (proj1 (Hr 2%nat ltac:(lia)))
                                  (proj2 (Hr 2%nat ltac:(lia))))) as (c2 & -> & H2 & U2).
  destruct (charAt_codeChars _ (random_index _ (proj1 (Hr 3%nat ltac:(lia)))
                                  (proj2 (Hr 3%nat ltac:(lia))))) as (c3 & -> & H3 & U3).
  destruct (charAt_codeChars _ (random_index _ (proj1 (Hr 4%nat ltac:(lia)))
                                  (proj2 (Hr 4%nat ltac:(lia))))) as (c4 & -> & H4 & U4).
  destruct (charAt_codeChars _ (random_index _ (proj1 (Hr 5%nat ltac:(lia)))
                                  (proj2 (Hr 5%nat ltac:(lia))))) as (c5 & -> & H5 & U5).
  unfold String.app. cbn [append String.length hasChar toUpperCase].
  rewrite H0, H1, H2, H3, H4, H5, U0, U1, U2, U3, U4, U5. repeat split.
Qed.

Lemma generateRoomCode_shape_witness :
  String.length (generateRoomCode (fun i => (Z.of_nat i # 7)%Q)) = 6%nat
  /\ hasChar (fun c => negb (isCodeChar c)) (generateRoomCode (fun i => (Z.of_nat i # 7)%Q)) = false
  /\ toUpperCase (generateRoomCode (fun i => (Z.of_nat i # 7)%Q))
     = generateRoomCode (fun i => (Z.of_nat i # 7)%Q).
Proof.
  apply (generateRoomCode_shape (fun i => (Z.of_nat i # 7)%Q)).
  intros i Hi. unfold Qle, Qlt. simpl. lia.
Defined.

Example generateRoomCode_sample :
  generateRoomCode (fun i => (Z.of_nat i # 7)%Q) = "AFKPUZ".
Proof. reflexivity. Qed.

(** ** Joining from the home page *)

Lemma homeJoinRoom_cases user joinCode now db :
  (homeJoinRoom user joinCode now db).1 = db
  \/ exists u room row,
       user = Some u
       /\ findFirst (fun r => bool_decide (HomeRoom.id r = toUpperCase joinCode))
                    (homeRooms db) = Some room
       /\ HomeRoom.status room <> "finished"
       /\ filter (fun p => HomePlayer.roomId p = HomeRoom.id room
                           /\ HomePlayer.userId p = User.id u) (homePlayers db) = []
       /\ homeJoinRoom user joinCode now db
          = ({| homeRooms := homeRooms db; homePlayers := homePlayers db ++ [row] |},
             JoinedRoom (HomeRoom.id room))
       /\ HomePlayer.roomId row = HomeRoom.id room
       /\ HomePlayer.userId row = User.id u
       /\ HomePlayer.score row = 0
       /\ HomePlayer.team row
          = (if HomeRoom.teamMode room
             then Some (nextTeam (HomeRoom.id room) db) else None).
Proof.
  unfold homeJoinRoom. destruct user as [u|]; [|now left].
  case_bool_decide; [now left|].
  destruct (findFirst _ (homeRooms db)) as [room|] eqn:Hroom; [|now left].
  case_bool_decide as Hfin; [now left|].
  destruct (filter _ (homePlayers db)) as [|p l] eqn:Hex; [|now left].
  unfold createRow.
  destruct (hasId HomePlayer.id _ (homePlayers db)); [now left|].
  right. exists u, room. eexists.
  repeat split; try reflexivity; assumption.
Qed.

Lemma teamCount_snoc team roomId db rooms row :
  HomePlayer.roomId row = roomId ->
  teamCount team roomId {| homeRooms := rooms; homePlayers := homePlayers db ++ [row] |}
  = (teamCount team roomId db
     + if decide (HomePlayer.team row = Some team) then 1 else 0)%nat.
Proof.
  intros Hroom. unfold teamCount. cbn [homePlayers].
  rewrite filter_app, (filter_cons_True _ row) by exact Hroom.
  rewrite filter_nil, filter_app, length_app, filter_cons, filter_nil.
  now destruct (decide (HomePlayer.team row = Some team)).
Qed.

(** X24.  Joining keeps the teams of a team-mode room balanced: if red has
    as many players as blue or one more, this still holds after
    [joinRoom], whoever joins and whether or not a row is added. *)
Theorem homeJoinRoom_keeps_teams_balanced user joinCode now db room :
  findFirst (fun r => bool_decide (HomeRoom.id r = toUpperCase joinCode))
            (homeRooms db) = Some room ->
  HomeRoom.teamMode room = true ->
  balanced (HomeRoom.id room) db ->
  balanced (HomeRoom.id room) (homeJoinRoom user joinCode now db).1.
Proof.
  intros Hroom Hteam Hbal.
  destruct (homeJoinRoom_cases user joinCode now db)
    as [->|(u & room' & row & _ & Hroom' & _ & _ & -> & Hrid & _ & _ & Hrowteam)];
    [exact Hbal|].
  rewrite Hroom in Hroom'. injection Hroom' as <-.
  rewrite Hteam in Hrowteam. unfold balanced in *. cbn [fst].
  rewrite !teamCount_snoc, Hrowteam by exact Hrid.
  unfold nextTeam. cbv zeta.
  fold (teamCount "red" (HomeRoom.id room) db).
  fold (teamCount "blue" (HomeRoom.id room) db).
  destruct (teamCount "red" (HomeRoom.id room) db
            <=? teamCount "blue" (HomeRoom.id room) db)%nat eqn:E.
  - apply Nat.leb_le in E.
    rewrite (decide_True (P := Some "red" = Some "red")) by reflexivity.
    rewrite (decide_False (P := Some "red" = Some "blue")) by discriminate. lia.
  - apply Nat.leb_gt in E.
    rewrite (decide_False (P := Some "blue" = Some "red")) by discriminate.
    rewrite (decide_True (P := Some "blue" = Some "blue")) by reflexivity. lia.
Qed.

Lemma homeJoinRoom_keeps_teams_balanced_witness :
  balanced "ABC123" (homeJoinRoom (Some Ex.bob) "abc123" Ex.now Ex2.teamRoom).1.
Proof.
  apply (homeJoinRoom_keeps_teams_balanced (Some Ex.bob) "abc123" Ex.now Ex2.teamRoom
           {| HomeRoom.id := "ABC123";
              HomeRoom.hostId := "u_alice";
              HomeRoom.status := "waiting";
              HomeRoom.currentRound := 0;
              HomeRoom.maxRounds := 3;
              HomeRoom.roundTimeLimit := 60;
              HomeRoom.difficulty := "medium";
              HomeRoom.customWords := None;
              HomeRoom.teamMode := true;
              HomeRoom.createdAt := Ex.now |}); try reflexivity.
  unfold balanced. vm_compute. split; repeat constructor.
Defined.

Example second_player_goes_blue :
  HomePlayer.team <$> last (homePlayers
                              (homeJoinRoom (Some Ex.bob) "abc123" Ex.now Ex2.teamRoom).1)
  = Some (Some "blue").
Proof. reflexivity. Qed.

(** X25.  Joining never gives a user a second row in a room: for every room
    and user the number of rows after [joinRoom] is at most one, or what it
    was before; room rows are never changed by it. *)
Theorem homeJoinRoom_one_row_per_user user joinCode now db roomId userId :
  (rowsOf roomId userId (homeJoinRoom user joinCode now db).1
   <= Nat.max 1 (rowsOf roomId userId db))%nat
  /\ homeRooms (homeJoinRoom user joinCode now db).1 = homeRooms db.
Proof.
  destruct (homeJoinRoom_cases user joinCode now db)
    as [->|(u & room & row & _ & _ & _ & Hnone & -> & Hrid & Huid & _)];
    [split; [lia|reflexivity]|].
  split; [|reflexivity]. unfold rowsOf. cbn [fst homePlayers].
  rewrite filter_app, length_app, filter_cons, filter_nil.
  case_decide as Hmatch; [|simpl; lia].
  destruct Hmatch as [<- <-]. rewrite Hrid, Huid, Hnone. simpl. lia.
Qed.
